(** * clade_data_utils: the two table transformations of [utility/data_utility.py]

    [data_prep] filters a line list and collapses it into per
    (location, date, clade) counts; [clades_to_model] looks at the last weeks
    of such counts and returns the clades to model.

    Data frames are lists of rows, one record type per frame shape.  A nullable
    column is an [option].  Dates are proleptic Gregorian ordinals (what
    Python's [date.toordinal] returns: 1 is 0001-01-01, a Monday).  Counts are
    integers in [Z] and [sum] adds them exactly, whereas polars adds a column
    in its own integer type and wraps around.  The two agree where the sums
    stay in range: the counts that [data_prep] produces are group sizes, and
    every sum of them is at most the number of raw lines, which is below 2^32
    for a polars frame.  The theorems that speak of a sum of counts are
    therefore stated on the output of [data_prep] and carry this bound.
    Proportions are IEEE-754 binary64 values ([spec_float] at precision 53),
    as polars computes them.

    polars leaves the row order of [group_by], [unique], [join] and of ties in
    [sort] unspecified, and may choose another order on each call.  The model
    fixes one such order (groups in order of first appearance, stable sort);
    the theorems below only state facts that hold for every order polars may
    choose: membership, [NoDup], sortedness, and [Permutation] where two
    frames are compared. *)

From Stdlib Require Import ZArith List String Bool Lia.
From Stdlib Require Import Sorting.Sorted Sorting.Permutation.
From Stdlib Require Import Floats.SpecFloat.
Import ListNotations.
Local Open Scope Z_scope.

(** ** Exceptions *)

Inductive exn : Type :=
| AttributeError          (* [None.weekday()] *)
| OverflowError           (* [timedelta] or [date] arithmetic out of range *)
| InvalidOperationError.  (* polars: index column of [group_by_dynamic] unusable *)

Inductive result (A : Type) : Type :=
| Ok (a : A)
| Raise (e : exn).
Arguments Ok {A} a.
Arguments Raise {A} e.

Definition bind {A B : Type} (m : result A) (k : A -> result B) : result B :=
  match m with
  | Ok a => k a
  | Raise e => Raise e
  end.

Notation "x <- m ;; k" := (bind m (fun x => k))
  (at level 61, m at next level, right associativity).

(** ** Generic frame operations *)

Section GroupBy.
Context {A K : Type}.
Variable K_eq_dec : forall a b : K, {a = b} + {a <> b}.
Variable key : A -> K.

(** Append a row to the group of its key, opening a new group at the end
    when the key is new. *)
Fixpoint group_insert (x : A) (groups : list (K * list A)) : list (K * list A) :=
  match groups with
  | [] => [(key x, [x])]
  | (k, members) :: rest =>
      if K_eq_dec (key x) k
      then (k, members ++ [x]) :: rest
      else (k, members) :: group_insert x rest
  end.

(** [frame.group_by(key)]: the groups with their rows.  polars returns the
    groups in an order of its choosing; here they come in the order in which
    their keys first appear. *)
Definition group_by (rows : list A) : list (K * list A) :=
  fold_left (fun groups x => group_insert x groups) rows [].

(** [column.unique()]. *)
Definition unique (col : list K) : list K := nodup K_eq_dec col.

(** The rows of [rows] whose key is [k], in frame order. *)
Definition with_key (k : K) (rows : list A) : list A :=
  filter (fun x => if K_eq_dec (key x) k then true else false) rows.
End GroupBy.

Section Sort.
Context {A : Type}.
Variable leb : A -> A -> bool.

Fixpoint insert_sorted (x : A) (l : list A) : list A :=
  match l with
  | [] => [x]
  | y :: rest => if leb x y then x :: l else y :: insert_sorted x rest
  end.

(** [frame.sort(column)], ascending. *)
Definition sort (l : list A) : list A := fold_right insert_sorted [] l.
End Sort.

(** [column.sum()], added exactly: polars adds in the integer type of the
    column and wraps around, so this is the sum polars computes where the sum
    stays in the range of that type. *)
Definition sum (col : list Z) : Z := fold_right Z.add 0 col.

Definition opt_string_eq_dec (a b : option string) : {a = b} + {a <> b}.
Proof. decide equality. apply string_dec. Defined.

Definition opt_date_eq_dec (a b : option Z) : {a = b} + {a <> b}.
Proof. decide equality. apply Z.eq_dec. Defined.

(** [pl.col(c) == s]: a null cell compares to null, which [filter] drops. *)
Definition col_eq (cell : option string) (s : string) : bool :=
  match cell with
  | Some v => String.eqb v s
  | None => false
  end.

(** [pl.col(c).is_in(values)]. *)
Definition is_in (cell : option string) (values : list string) : bool :=
  match cell with
  | Some v => existsb (String.eqb v) values
  | None => false
  end.

Definition is_not_null {A : Type} (cell : option A) : bool :=
  match cell with
  | Some _ => true
  | None => false
  end.

(** ** Calendar arithmetic (Python's [datetime]) *)

Definition MAXORDINAL : Z := 3652059.   (* date(9999, 12, 31).toordinal() *)

(** [date.weekday()]: Monday is 0 and Sunday is 6. *)
Definition weekday (d : Z) : Z := (d + 6) mod 7.

(** [timedelta(days = n)]. *)
Definition timedelta (days : Z) : result Z :=
  if Z.abs days <=? 999999999 then Ok days else Raise OverflowError.

(** [d - delta] for a date and a timedelta. *)
Definition date_sub (d : Z) (delta : Z) : result Z :=
  let o := d - delta in
  if (0 <? o) && (o <=? MAXORDINAL) then Ok o else Raise OverflowError.

(** The Sunday on or before [d]: the start of the Sunday-to-Saturday week
    that contains [d]. *)
Definition week_start (d : Z) : Z := d - (weekday d + 1) mod 7.

(** The Monday on or before [d]. *)
Definition monday_on_or_before (d : Z) : Z := d - weekday d.

(** ** Frames *)

(** The line list, restricted to the columns of [cols]; [D] is the type of the
    cells of its [date] column before the cast. *)
Module Line.
Record t (D : Type) : Type := mk {
  clade_nextstrain : option string;
  country : option string;
  division : option string;
  host : option string;
  date : option D
}.
Arguments mk {D}.
Arguments clade_nextstrain {D}.
Arguments country {D}.
Arguments division {D}.
Arguments host {D}.
Arguments date {D}.
End Line.

(** The filtered line list after the renaming. *)
Module Tidy.
Record t : Type := mk {
  clade : option string;
  country : option string;
  location : option string;
  host : option string;
  date : option Z
}.
End Tidy.

(** The output of [data_prep] and input of [clades_to_model]. *)
Module Counts.
Record t : Type := mk {
  location : option string;
  date : option Z;
  clade : option string;
  count : Z
}.
End Counts.

(** [df] of [clades_to_model]: one row per clade and week. *)
Module Weekly.
Record t : Type := mk {
  clade : option string;
  date : Z;
  count : Z
}.
End Weekly.

(** [total_counts] of [clades_to_model]: one row per week. *)
Module Total.
Record t : Type := mk {
  date : Z;
  total_count : Z
}.
End Total.

(** [prop_dat] of [clades_to_model]. *)
Module PropDat.
Record t : Type := mk {
  clade : option string;
  date : Z;
  count : Z;
  total_count : Z;
  proportion : spec_float
}.
End PropDat.

(** ** [data_prep] *)

Definition states : list string := [
  "Alabama"; "Alaska"; "Arizona"; "Arkansas"; "California"; "Colorado"; "Connecticut"; "Delaware";
  "Florida"; "Georgia"; "Hawaii"; "Idaho"; "Illinois"; "Indiana"; "Iowa"; "Kansas"; "Kentucky";
  "Louisiana"; "Maine"; "Maryland"; "Massachusetts"; "Michigan"; "Minnesota"; "Mississippi";
  "Missouri"; "Montana"; "Nebraska"; "Nevada"; "New Hampshire"; "New Jersey"; "New Mexico";
  "New York"; "North Carolina"; "North Dakota"; "Ohio"; "Oklahoma"; "Oregon"; "Pennsylvania";
  "Rhode Island"; "South Carolina"; "South Dakota"; "Tennessee"; "Texas"; "Utah"; "Vermont";
  "Virginia"; "Washington"; "West Virginia"; "Wisconsin"; "Wyoming"; "Washington DC"
]%string.

(** [dataf.cast({"date" : pl.Date}, strict=False).select(cols)]; [to_date] is
    polars' conversion of one cell, null where the cell does not convert. *)
Definition cast {D : Type} (to_date : D -> option Z) (r : Line.t D) : Line.t Z :=
  Line.mk (Line.clade_nextstrain r) (Line.country r) (Line.division r) (Line.host r)
          (match Line.date r with Some c => to_date c | None => None end).

(** The four predicates of [.filter(...)], all of which must hold. *)
Definition keep (r : Line.t Z) : bool :=
  col_eq (Line.country r) "USA"
  && is_in (Line.division r) states
  && is_not_null (Line.date r)
  && col_eq (Line.host r) "Homo sapiens".

Definition rename (r : Line.t Z) : Tidy.t :=
  Tidy.mk (Line.clade_nextstrain r) (Line.country r) (Line.division r) (Line.host r)
          (Line.date r).

(** Nulls sort first. *)
Definition opt_date_leb (a b : option Z) : bool :=
  match a, b with
  | None, _ => true
  | Some _, None => false
  | Some x, Some y => x <=? y
  end.

Definition key3 : Type := option string * option Z * option string.

Definition key3_eq_dec (a b : key3) : {a = b} + {a <> b}.
Proof.
  decide equality; [apply opt_string_eq_dec | decide equality].
  - apply opt_date_eq_dec.
  - apply opt_string_eq_dec.
Defined.

Definition tidy_key (r : Tidy.t) : key3 := (Tidy.location r, Tidy.date r, Tidy.clade r).

(** The same key read off a row of the line list and off a row of counts. *)
Definition line_key (r : Line.t Z) : key3 :=
  (Line.division r, Line.date r, Line.clade_nextstrain r).

Definition counts_key (r : Counts.t) : key3 :=
  (Counts.location r, Counts.date r, Counts.clade r).

Definition key3_eqb (a b : key3) : bool := if key3_eq_dec a b then true else false.

(** The frame [df] of [data_prep]. *)
Definition tidy {D : Type} (to_date : D -> option Z) (dataf : list (Line.t D)) : list Tidy.t :=
  map rename (filter keep (map (cast to_date) dataf)).

(** [.agg(pl.len().alias("count"))] on one group. *)
Definition agg_len (g : key3 * list Tidy.t) : Counts.t :=
  let '(loc, d, c) := fst g in
  Counts.mk loc d c (Z.of_nat (List.length (snd g))).

Definition data_prep {D : Type} (to_date : D -> option Z) (dataf : list (Line.t D))
  : list Counts.t :=
  let df := tidy to_date dataf in
  let by_date := sort (fun a b => opt_date_leb (Tidy.date a) (Tidy.date b)) in
  let counts_dat :=
    sort (fun a b => opt_date_leb (Counts.date a) (Counts.date b))
         (map agg_len (group_by key3_eq_dec tidy_key (by_date df))) in
  counts_dat.


(** ** [clades_to_model] *)

Definition opt_max (a b : option Z) : option Z :=
  match a, b with
  | Some x, Some y => Some (Z.max x y)
  | Some x, None => Some x
  | None, _ => b
  end.

(** [dataf['date'].max()]: nulls are skipped, and the maximum of no value at
    all is Python's [None]. *)
Definition max_day (dataf : list Counts.t) : option Z :=
  fold_right (fun r acc => opt_max (Counts.date r) acc) None dataf.

(** [max_day - timedelta(days = max_day.weekday() + 7*(threshold_weeks))]. *)
Definition three_sundays_ago (dataf : list Counts.t) (threshold_weeks : Z) : result Z :=
  match max_day dataf with
  | None => Raise AttributeError
  | Some day =>
      delta <- timedelta (weekday day + 7 * threshold_weeks) ;;
      date_sub day delta
  end.

(** [pl.col("date") >= three_sundays_ago]; a null date is dropped. *)
Definition date_ge (cutoff : Z) (r : Counts.t) : bool :=
  match Counts.date r with
  | Some d => cutoff <=? d
  | None => false
  end.

(** [dataf.filter(pl.col("date") >= three_sundays_ago)]. *)
Definition window (cutoff : Z) (dataf : list Counts.t) : list Counts.t :=
  filter (date_ge cutoff) dataf.

Definition the_date (r : Counts.t) : Z :=
  match Counts.date r with
  | Some d => d
  | None => 0
  end.

Fixpoint ascending (l : list Z) : bool :=
  match l with
  | a :: (b :: _) as rest => (a <=? b) && ascending rest
  | _ => true
  end.

(** The windows of one clade: weeks of seven days counted from the Sunday on
    or before the first row of the clade, each labelled by its first day and
    closed on the left; only the weeks that hold a row are produced.  The
    aggregation is [pl.col("count").sum()]. *)
Definition windows (g : option string * list Counts.t) : list Weekly.t :=
  match snd g with
  | [] => []
  | first :: _ =>
      let start := week_start (the_date first) in
      map (fun w => Weekly.mk (fst g) (fst w) (sum (map Counts.count (snd w))))
          (group_by Z.eq_dec (fun r => start + 7 * ((the_date r - start) / 7)) (snd g))
  end.

(** [.group_by_dynamic("date", every="1w", start_by="sunday", group_by="clade")]
    followed by the aggregation.  polars refuses an index column that holds a
    null or that is not ascending inside each clade. *)
Definition group_by_dynamic (rows : list Counts.t) : result (list Weekly.t) :=
  let groups := group_by opt_string_eq_dec Counts.clade rows in
  if forallb (fun r => is_not_null (Counts.date r)) rows
     && forallb (fun g => ascending (map the_date (snd g))) groups
  then Ok (flat_map windows groups)
  else Raise InvalidOperationError.

(** The rows of clade [c] dated in the week that starts on [week]. *)
Definition cell (c : option string) (week : Z) (rows : list Counts.t) : list Counts.t :=
  with_key Z.eq_dec (fun r => week_start (the_date r)) week
           (with_key opt_string_eq_dec Counts.clade c rows).

(** The frame [df] of [clades_to_model]. *)
Definition weekly (dataf : list Counts.t) (threshold_weeks : Z) : result (list Weekly.t) :=
  cutoff <- three_sundays_ago dataf threshold_weeks ;;
  group_by_dynamic (window cutoff dataf).

Definition total_counts (df : list Weekly.t) : list Total.t :=
  map (fun g => Total.mk (fst g) (sum (map Weekly.count (snd g))))
      (group_by Z.eq_dec Weekly.date df).

(** The sum of the counts of the weekly rows of one week. *)
Definition week_total (df : list Weekly.t) (week : Z) : Z :=
  sum (map Weekly.count (with_key Z.eq_dec Weekly.date week df)).

(** The sum of the counts of the rows of one clade. *)
Definition window_count (rows : list Counts.t) (c : option string) : Z :=
  sum (map Counts.count (with_key opt_string_eq_dec Counts.clade c rows)).

(** Integer to binary64 and binary64 division, round to nearest even. *)
Definition to_f64 (n : Z) : spec_float := binary_normalize 53 1024 n 0 false.
Definition f64_div (x y : spec_float) : spec_float := SFdiv 53 1024 x y.

(** polars orders floats totally: NaN is above every other value. *)
Definition f64_gt (x y : spec_float) : bool :=
  match x, y with
  | S754_nan, S754_nan => false
  | S754_nan, _ => true
  | _, S754_nan => false
  | _, _ => SFltb y x
  end.

(** [df.join(total_counts, on="date")]. *)
Definition join (df : list Weekly.t) (totals : list Total.t) : list (Weekly.t * Total.t) :=
  flat_map (fun l => map (pair l) (filter (fun r => Total.date r =? Weekly.date l) totals)) df.

(** [.with_columns((pl.col("count")/pl.col("total_count")).alias("proportion"))]. *)
Definition with_proportion (j : Weekly.t * Total.t) : PropDat.t :=
  let count := Weekly.count (fst j) in
  let total_count := Total.total_count (snd j) in
  PropDat.mk (Weekly.clade (fst j)) (Weekly.date (fst j)) count total_count
             (f64_div (to_f64 count) (to_f64 total_count)).

Definition prop_dat (df : list Weekly.t) : list PropDat.t :=
  map with_proportion (join df (total_counts df)).

(** The clades with a weekly proportion above the threshold. *)
Definition high_prev_variants (threshold : spec_float) (prop : list PropDat.t)
  : list (option string) :=
  unique opt_string_eq_dec
    (map PropDat.clade (filter (fun r => f64_gt (PropDat.proportion r) threshold) prop)).

(** [prop_dat.group_by("clade").agg(pl.col("count").sum())]. *)
Definition clade_counts (prop : list PropDat.t) : list (option string * Z) :=
  map (fun g => (fst g, sum (map PropDat.count (snd g))))
      (group_by opt_string_eq_dec PropDat.clade prop).

(** The replacement list of the branch [len(high_prev_variants) > 9]:
    [.sort("count").get_column("clade").to_list()[:9]]. *)
Definition nine_by_count (prop : list PropDat.t) : list (option string) :=
  firstn 9 (map fst (sort (fun a b => snd a <=? snd b) (clade_counts prop))).

Definition clades_to_model (dataf : list Counts.t) (threshold : spec_float)
  (threshold_weeks : Z) : result (list (option string)) :=
  df <- weekly dataf threshold_weeks ;;
  let prop := prop_dat df in
  let high := high_prev_variants threshold prop in
  Ok (if (9 <? List.length high)%nat then nine_by_count prop else high).

(** The defaults [threshold = .01] and [threshold_weeks = 3]. *)
Definition default_threshold : spec_float := S754_finite false 5764607523034235 (-59).
Definition default_threshold_weeks : Z := 3.

(** The key of a row of the weekly frame. *)
Definition weekly_key (w : Weekly.t) : option string * Z := (Weekly.clade w, Weekly.date w).

(** A row of counts with its location replaced. *)
Definition set_location (f : option string -> option string) (r : Counts.t) : Counts.t :=
  Counts.mk (f (Counts.location r)) (Counts.date r) (Counts.clade r) (Counts.count r).

(** ** Sample frames

    Dates: 738895 is Wednesday 2024-01-10, and 738892 is the Sunday before. *)

(** A date column that already holds dates casts to itself. *)
Definition already_date (d : Z) : option Z := Some d.

Definition sample_line (host : string) : Line.t Z :=
  Line.mk (Some "XBB"%string) (Some "USA"%string) (Some "California"%string) (Some host)
          (Some 738895).

(** Three human samples and one from a dog, same state, day and clade. *)
Definition sample_lines : list (Line.t Z) :=
  [sample_line "Homo sapiens"; sample_line "Homo sapiens"; sample_line "Canis lupus";
   sample_line "Homo sapiens"]%string.

Definition sample_row : Counts.t :=
  Counts.mk (Some "California"%string) (Some 738895) (Some "XBB"%string) 3.

Definition sample_counts : list Counts.t := [sample_row].

Definition sample_week : Weekly.t := Weekly.mk (Some "XBB"%string) 738892 3.

(** Eleven clades on one day: ten with a hundred samples and one with one. *)
Definition eleven_clades : list Counts.t :=
  map (fun c => Counts.mk (Some "Texas"%string) (Some 738895) (Some (fst c)) (snd c))
      [("A", 100); ("B", 100); ("C", 100); ("rare", 1); ("D", 100); ("E", 100);
       ("F", 100); ("G", 100); ("H", 100); ("I", 100); ("J", 100)]%string.

(** The weekly frame of [eleven_clades] for three weeks. *)
Definition eleven_weekly : list Weekly.t :=
  match weekly eleven_clades 3 with
  | Ok df => df
  | Raise _ => []
  end.

(** Twenty-one lines on one day: two for each of ten clades, one for another. *)
Definition clade_line (c : string) : Line.t Z :=
  Line.mk (Some c) (Some "USA"%string) (Some "Texas"%string) (Some "Homo sapiens"%string)
          (Some 738895).

Definition eleven_lines : list (Line.t Z) :=
  map clade_line
      ["A"; "B"; "C"; "rare"; "D"; "E"; "F"; "G"; "H"; "I"; "J";
       "A"; "B"; "C"; "D"; "E"; "F"; "G"; "H"; "I"; "J"]%string.

(** The weekly frame of the counts of [eleven_lines] for three weeks. *)
Definition eleven_lines_weekly : list Weekly.t :=
  match weekly (data_prep already_date eleven_lines) 3 with
  | Ok df => df
  | Raise _ => []
  end.

(** A frame of counts with one row before the cutoff for three weeks and one
    row after it. *)
Definition sample_with_old : list Counts.t :=
  [Counts.mk (Some "Texas"%string) (Some 738800) (Some "BA.2"%string) 7; sample_row].

(** A line list in which no line passes the filter. *)
Definition dog_lines : list (Line.t Z) :=
  [sample_line "Canis lupus"; sample_line "Felis catus"]%string.

(** A frame of counts whose one row has no date. *)
Definition undated_counts : list Counts.t :=
  [Counts.mk (Some "California"%string) None (Some "XBB"%string) 3].

(** The float 1.0. *)
Definition one : spec_float := S754_finite false 4503599627370496 (-52).

Definition sample_share : PropDat.t := PropDat.mk (Some "XBB"%string) 738892 3 3 one.

(** * Properties *)

(** ** Grouping *)

Section GroupByFacts.
Context {A K : Type}.
Variable K_eq_dec : forall a b : K, {a = b} + {a <> b}.
Variable key : A -> K.

Let insert := group_insert K_eq_dec key.
Let groups_of := group_by K_eq_dec key.
Let rows_of := with_key K_eq_dec key.

Lemma with_key_app k l1 l2 : rows_of k (l1 ++ l2) = rows_of k l1 ++ rows_of k l2.
Proof. apply filter_app. Qed.

Lemma with_key_In k l x : In x (rows_of k l) <-> In x l /\ key x = k.
Proof.
  unfold rows_of, with_key. rewrite filter_In.
  destruct (K_eq_dec (key x) k); intuition congruence.
Qed.

Lemma with_key_nil_iff k l : rows_of k l = [] <-> forall x, In x l -> key x <> k.
Proof.
  split.
  - intros E x Hx Hk.
    assert (In x (rows_of k l)) as Hin by (apply with_key_In; auto).
    rewrite E in Hin. exact Hin.
  - intros H. destruct (rows_of k l) as [|y ys] eqn:E; [reflexivity|].
    assert (In y (rows_of k l)) as Hin by (rewrite E; left; reflexivity).
    apply with_key_In in Hin. destruct Hin as [Hy Hk]. destruct (H y Hy Hk).
Qed.

Lemma group_insert_keys x gs k :
  In k (map fst (insert x gs)) <-> k = key x \/ In k (map fst gs).
Proof.
  induction gs as [|[k' m] rest IH]; simpl.
  - intuition.
  - destruct (K_eq_dec (key x) k') as [E|N]; simpl.
    + subst k'. intuition.
    + rewrite IH. intuition.
Qed.

Lemma group_insert_NoDup x gs :
  NoDup (map fst gs) -> NoDup (map fst (insert x gs)).
Proof.
  induction gs as [|[k' m] rest IH]; simpl; intros H.
  - constructor; [intros []|constructor].
  - inversion H as [|? ? Hnotin Hrest]; subst.
    destruct (K_eq_dec (key x) k') as [E|N]; simpl.
    + constructor; assumption.
    + constructor; [|apply IH; assumption].
      intros Hin. apply group_insert_keys in Hin.
      destruct Hin as [Hk|Hin]; [congruence|contradiction].
Qed.

Lemma group_insert_In x gs k xs :
  NoDup (map fst gs) ->
  (In (k, xs) (insert x gs) <->
     (k <> key x /\ In (k, xs) gs)
     \/ (k = key x /\ exists ys, xs = ys ++ [x]
                      /\ (In (k, ys) gs \/ (ys = [] /\ ~ In k (map fst gs))))).
Proof.
  induction gs as [|[k' m] rest IH]; simpl; intros H.
  - split.
    + intros [E|[]]. inversion E; subst. right. split; [reflexivity|].
      exists []. split; [reflexivity|]. right. split; [reflexivity|]. intros [].
    + intros [[_ []]|[E [ys [Hxs [[]|[Hys _]]]]]]. subst. left. reflexivity.
  - inversion H as [|? ? Hnotin Hrest]; subst.
    specialize (IH Hrest).
    destruct (K_eq_dec (key x) k') as [E|N]; simpl.
    + subst k'. split.
      * intros [E|Hin].
        -- inversion E; subst. right. split; [reflexivity|].
           exists m. split; [reflexivity|]. left. left. reflexivity.
        -- left. split; [|right; exact Hin].
           intros ->. apply Hnotin. apply (in_map fst) in Hin. exact Hin.
      * intros [[Hk [E|Hin]]|[Hk [ys [Hxs [[E|Hin]|[_ Hno]]]]]].
        -- inversion E; congruence.
        -- right. exact Hin.
        -- inversion E; subst. left. reflexivity.
        -- subst k. exfalso. apply Hnotin. apply (in_map fst) in Hin. exact Hin.
        -- exfalso. apply Hno. left. symmetry. exact Hk.
    + rewrite IH. split.
      * intros [E|[[Hk Hin]|[Hk [ys [Hxs [Hin|[Hys Hno]]]]]]].
        -- inversion E; subst. left. split; [congruence|left; reflexivity].
        -- left. split; [exact Hk|right; exact Hin].
        -- right. split; [exact Hk|]. exists ys. split; [exact Hxs|]. left. right. exact Hin.
        -- right. split; [exact Hk|]. exists ys. split; [exact Hxs|]. right.
           split; [exact Hys|]. intros [E|Hin]; [congruence|contradiction].
      * intros [[Hk [E|Hin]]|[Hk [ys [Hxs [[E|Hin]|[Hys Hno]]]]]].
        -- left. exact E.
        -- right. left. split; assumption.
        -- inversion E; congruence.
        -- right. right. split; [exact Hk|]. exists ys. split; [exact Hxs|]. left. exact Hin.
        -- right. right. split; [exact Hk|]. exists ys. split; [exact Hxs|]. right.
           split; [exact Hys|]. intros Hin. apply Hno. right. exact Hin.
Qed.

Lemma group_by_snoc l x : groups_of (l ++ [x]) = insert x (groups_of l).
Proof. unfold groups_of, group_by. rewrite fold_left_app. reflexivity. Qed.

(** The groups partition the frame by key: keys are pairwise distinct, and a
    group holds exactly the rows of its key, of which there is at least one. *)
Lemma group_by_spec l :
  NoDup (map fst (groups_of l))
  /\ forall k xs, In (k, xs) (groups_of l) <-> (xs = rows_of k l /\ xs <> []).
Proof.
  induction l as [|x l IH] using rev_ind.
  - split; [constructor|]. intros k xs. simpl. split; [intros []|].
    intros [-> H]. apply H. reflexivity.
  - destruct IH as [ND IH]. rewrite group_by_snoc. split.
    + apply group_insert_NoDup. exact ND.
    + intros k xs. rewrite (group_insert_In x _ k xs ND), with_key_app.
      assert (Hsnoc : forall k', rows_of k' [x] = if K_eq_dec (key x) k' then [x] else []).
      { intros k'. unfold rows_of, with_key. simpl. destruct (K_eq_dec (key x) k'); reflexivity. }
      rewrite Hsnoc. split.
      * intros [[Hk Hin]|[Hk [ys [Hxs [Hin|[Hys Hno]]]]]].
        -- apply IH in Hin. destruct Hin as [-> Hne].
           destruct (K_eq_dec (key x) k); [congruence|]. rewrite app_nil_r. auto.
        -- apply IH in Hin. destruct Hin as [-> Hne]. subst xs.
           destruct (K_eq_dec (key x) k); [|congruence]. split; [reflexivity|].
           intros E. apply app_eq_nil in E. destruct E; discriminate.
        -- subst xs ys. destruct (K_eq_dec (key x) k); [|congruence].
           assert (rows_of k l = []) as ->.
           { destruct (rows_of k l) as [|y r] eqn:E; [reflexivity|]. exfalso. apply Hno.
             assert (In (k, y :: r) (groups_of l)) as Hin
               by (apply IH; split; [congruence|discriminate]).
             apply (in_map fst) in Hin. exact Hin. }
           split; [reflexivity|discriminate].
      * intros [-> Hne]. destruct (K_eq_dec (key x) k) as [E|N].
        -- right. split; [congruence|]. exists (rows_of k l). split; [reflexivity|].
           destruct (rows_of k l) as [|y r] eqn:E'.
           ++ right. split; [reflexivity|]. intros Hin.
              apply in_map_iff in Hin. destruct Hin as [[k' ys] [Hk Hin]]. simpl in Hk. subst k'.
              apply IH in Hin. destruct Hin as [-> Hne']. apply Hne'. exact E'.
           ++ left. apply IH. split; [congruence|discriminate].
        -- left. split; [congruence|]. rewrite app_nil_r in Hne |- *.
           apply IH. split; [reflexivity|exact Hne].
Qed.

Lemma group_by_NoDup l : NoDup (map fst (groups_of l)).
Proof. apply group_by_spec. Qed.

Lemma group_by_In l k xs :
  In (k, xs) (groups_of l) <-> (xs = rows_of k l /\ xs <> []).
Proof. apply group_by_spec. Qed.

Lemma group_by_complete l x :
  In x l -> In (key x, rows_of (key x) l) (groups_of l).
Proof.
  intros Hx. apply group_by_In. split; [reflexivity|].
  intros E. rewrite with_key_nil_iff in E. apply (E x Hx). reflexivity.
Qed.

Lemma group_by_keys l k :
  In k (map fst (groups_of l)) <-> exists x, In x l /\ key x = k.
Proof.
  split.
  - intros Hin. apply in_map_iff in Hin. destruct Hin as [[k' xs] [Hk Hin]].
    simpl in Hk. subst k'. apply group_by_In in Hin. destruct Hin as [-> Hne].
    destruct (rows_of k l) as [|y r] eqn:E; [congruence|].
    exists y. apply with_key_In. rewrite E. left. reflexivity.
  - intros [x [Hx <-]].
    apply (in_map fst _ _ (group_by_complete l x Hx)).
Qed.
End GroupByFacts.

(** ** Sorting *)

Lemma filter_Permutation {A : Type} (f : A -> bool) (l l' : list A) :
  Permutation l l' -> Permutation (filter f l) (filter f l').
Proof.
  induction 1 as [|x l l' _ IH|x y l|l l' l'' _ IH1 _ IH2]; simpl.
  - constructor.
  - destruct (f x); [constructor|]; exact IH.
  - destruct (f x), (f y); try reflexivity. constructor.
  - etransitivity; eassumption.
Qed.

Lemma StronglySorted_filter {A : Type} (R : A -> A -> Prop) (f : A -> bool) (l : list A) :
  StronglySorted R l -> StronglySorted R (filter f l).
Proof.
  induction 1 as [|x l Hs IH Hall]; simpl; [constructor|].
  destruct (f x); [|exact IH]. constructor; [exact IH|].
  rewrite Forall_forall in Hall |- *. intros y Hy. apply filter_In in Hy. apply Hall, Hy.
Qed.

Lemma StronglySorted_weaken {A : Type} (R R' : A -> A -> Prop) (P : A -> Prop) (l : list A) :
  (forall a b, P a -> P b -> R a b -> R' a b) ->
  Forall P l -> StronglySorted R l -> StronglySorted R' l.
Proof.
  intros HR HP Hs. induction Hs as [|x l Hs IH Hall]; [constructor|].
  inversion HP as [|? ? Px Pl]; subst. constructor; [apply IH, Pl|].
  rewrite Forall_forall in *. intros y Hy. apply HR; auto.
Qed.

Section SortFacts.
Context {A : Type}.
Variable leb : A -> A -> bool.
Hypothesis leb_total : forall a b, leb a b = true \/ leb b a = true.
Hypothesis leb_trans : forall a b c, leb a b = true -> leb b c = true -> leb a c = true.

Let le (a b : A) : Prop := leb a b = true.

Lemma insert_sorted_perm x l : Permutation (insert_sorted leb x l) (x :: l).
Proof.
  induction l as [|y l IH]; simpl; [reflexivity|].
  destruct (leb x y); [reflexivity|].
  rewrite IH. apply perm_swap.
Qed.

Lemma sort_perm l : Permutation (sort leb l) l.
Proof.
  induction l as [|x l IH]; simpl; [constructor|].
  rewrite insert_sorted_perm. constructor. exact IH.
Qed.

Lemma insert_sorted_strongly x l :
  StronglySorted le l -> StronglySorted le (insert_sorted leb x l).
Proof.
  induction 1 as [|y l Hs IH Hall]; simpl.
  - constructor; constructor.
  - destruct (leb x y) eqn:E.
    + constructor; [constructor; assumption|].
      constructor; [exact E|].
      rewrite Forall_forall in Hall |- *. intros z Hz.
      apply (leb_trans x y z E). apply Hall, Hz.
    + constructor; [exact IH|].
      rewrite Forall_forall in Hall |- *. intros z Hz.
      apply (Permutation_in _ (insert_sorted_perm x l)) in Hz.
      destruct Hz as [<-|Hz]; [|apply Hall, Hz].
      destruct (leb_total x y) as [H|H]; [congruence|exact H].
Qed.

Lemma sort_sorted l : StronglySorted le (sort leb l).
Proof.
  induction l as [|x l IH]; simpl; [constructor|].
  apply insert_sorted_strongly, IH.
Qed.
End SortFacts.

Lemma opt_date_leb_total a b : opt_date_leb a b = true \/ opt_date_leb b a = true.
Proof. destruct a, b; simpl; auto. lia. Qed.

Lemma opt_date_leb_trans a b c :
  opt_date_leb a b = true -> opt_date_leb b c = true -> opt_date_leb a c = true.
Proof. destruct a, b, c; simpl; try congruence. lia. Qed.

(** ** [data_prep] *)

Lemma states_51 : List.length states = 51%nat /\ NoDup states.
Proof.
  split; [reflexivity|].
  apply (NoDup_nodup string_dec states).
Qed.

Lemma col_eq_true cell s : col_eq cell s = true <-> cell = Some s.
Proof.
  destruct cell as [v|]; simpl; [|split; discriminate].
  rewrite String.eqb_eq. split; congruence.
Qed.

Lemma is_in_true cell values :
  is_in cell values = true <-> exists v, cell = Some v /\ In v values.
Proof.
  destruct cell as [v|]; simpl.
  - rewrite existsb_exists. split.
    + intros [x [Hx E]]. apply String.eqb_eq in E. subst x. eauto.
    + intros [x [E Hx]]. inversion E; subst. exists x. split; [exact Hx|apply String.eqb_refl].
  - split; [discriminate|]. intros [v [E _]]. discriminate.
Qed.

Lemma is_not_null_true {A : Type} (cell : option A) :
  is_not_null cell = true <-> exists v, cell = Some v.
Proof.
  destruct cell; simpl; split; eauto; try discriminate. intros [v E]. discriminate.
Qed.

(** The filter keeps a row exactly when all four conditions hold. *)
Lemma keep_true r :
  keep r = true <->
  Line.country r = Some "USA"%string
  /\ (exists s, Line.division r = Some s /\ In s states)
  /\ (exists d, Line.date r = Some d)
  /\ Line.host r = Some "Homo sapiens"%string.
Proof.
  unfold keep. rewrite !andb_true_iff, !col_eq_true, is_in_true, is_not_null_true.
  tauto.
Qed.

Lemma tidy_key_rename r : tidy_key (rename r) = line_key r.
Proof. reflexivity. Qed.

Lemma counts_key_agg_len g : counts_key (agg_len g) = fst g.
Proof. destruct g as [[[loc d] c] xs]. reflexivity. Qed.

Lemma with_key_map {A B K : Type} (K_eq_dec : forall a b : K, {a = b} + {a <> b})
  (key : B -> K) (f : A -> B) (k : K) (l : list A) :
  with_key K_eq_dec key k (map f l) = map f (with_key K_eq_dec (fun x => key (f x)) k l).
Proof.
  unfold with_key. induction l as [|x l IH]; simpl; [reflexivity|].
  destruct (K_eq_dec (key (f x)) k); simpl; congruence.
Qed.

Section DataPrep.
Context {D : Type}.
Variable to_date : D -> option Z.
Variable dataf : list (Line.t D).

Let kept : list (Line.t Z) := filter keep (map (cast to_date) dataf).
Let leT (a b : Tidy.t) := opt_date_leb (Tidy.date a) (Tidy.date b).
Let leC (a b : Counts.t) := opt_date_leb (Counts.date a) (Counts.date b).

Let sorted_tidy : list Tidy.t := sort leT (tidy to_date dataf).

Lemma with_key_sorted_tidy k :
  Permutation (with_key key3_eq_dec tidy_key k sorted_tidy)
              (map rename (with_key key3_eq_dec line_key k kept)).
Proof.
  unfold sorted_tidy, with_key at 1.
  rewrite (filter_Permutation _ _ _ (sort_perm leT (tidy to_date dataf))).
  unfold tidy. fold kept.
  change (filter _ (map rename kept)) with (with_key key3_eq_dec tidy_key k (map rename kept)).
  rewrite with_key_map. reflexivity.
Qed.

(** A row of the output is the size of one non-empty group of the lines that
    pass the filter. *)
Lemma data_prep_In r :
  In r (data_prep to_date dataf) <->
  exists loc d c,
    r = Counts.mk loc d c
          (Z.of_nat (List.length (with_key key3_eq_dec line_key (loc, d, c) kept)))
    /\ with_key key3_eq_dec line_key (loc, d, c) kept <> [].
Proof.
  unfold data_prep. fold leT leC sorted_tidy.
  split.
  - intros Hin. apply (Permutation_in _ (sort_perm leC _)) in Hin.
    apply in_map_iff in Hin. destruct Hin as [[[[loc d] c] xs] [<- Hg]].
    apply group_by_In in Hg. destruct Hg as [-> Hne].
    pose proof (with_key_sorted_tidy (loc, d, c)) as P.
    exists loc, d, c. split.
    + unfold agg_len. simpl. rewrite (Permutation_length P), length_map. reflexivity.
    + intros E. rewrite E in P. simpl in P.
      apply Permutation_sym, Permutation_nil in P. contradiction.
  - intros [loc [d [c [-> Hne]]]].
    apply (Permutation_in _ (Permutation_sym (sort_perm leC _))).
    pose proof (with_key_sorted_tidy (loc, d, c)) as P.
    apply in_map_iff.
    exists ((loc, d, c), with_key key3_eq_dec tidy_key (loc, d, c) sorted_tidy). split.
    + unfold agg_len. simpl. rewrite (Permutation_length P), length_map. reflexivity.
    + apply group_by_In. split; [reflexivity|].
      intros E. rewrite E in P. apply Permutation_nil in P.
      apply map_eq_nil in P. contradiction.
Qed.

Lemma group_size_raw k :
  List.length (with_key key3_eq_dec line_key k kept)
  = List.length (filter (fun x => keep (cast to_date x)
                                  && key3_eqb (line_key (cast to_date x)) k) dataf).
Proof.
  unfold kept, with_key, key3_eqb.
  induction dataf as [|x l IH]; cbn [map filter]; [reflexivity|].
  destruct (keep (cast to_date x)); cbn [andb filter]; [|exact IH].
  destruct (key3_eq_dec (line_key (cast to_date x)) k); cbn [List.length]; congruence.
Qed.

Lemma kept_In y :
  In y kept <-> exists x, In x dataf /\ y = cast to_date x /\ keep y = true.
Proof.
  unfold kept. rewrite filter_In, in_map_iff. split.
  - intros [[x [E Hx]] Hk]. eauto.
  - intros [x [Hx [E Hk]]]. eauto.
Qed.

Lemma data_prep_has_date r :
  In r (data_prep to_date dataf) -> exists d, Counts.date r = Some d.
Proof.
  intros Hr. apply data_prep_In in Hr. destruct Hr as [loc [d [c [-> Hne]]]].
  destruct (with_key key3_eq_dec line_key (loc, d, c) kept) as [|y ys] eqn:E; [congruence|].
  assert (Hy : In y kept /\ line_key y = (loc, d, c)).
  { apply (with_key_In key3_eq_dec line_key). rewrite E. left. reflexivity. }
  destruct Hy as [Hy Hk]. apply kept_In in Hy. destruct Hy as [x [_ [_ Hkeep]]].
  apply keep_true in Hkeep. destruct Hkeep as [_ [_ [[d' Hd] _]]].
  injection Hk as _ E2 _. exists d'. cbn [Counts.date]. congruence.
Qed.

Lemma data_prep_count_pos r :
  In r (data_prep to_date dataf) -> 1 <= Counts.count r.
Proof.
  intros Hr. apply data_prep_In in Hr. destruct Hr as [loc [d [c [-> Hne]]]].
  cbn [Counts.count].
  destruct (with_key key3_eq_dec line_key (loc, d, c) kept); [congruence|].
  cbn [List.length]. lia.
Qed.

Lemma data_prep_keys_NoDup : NoDup (map counts_key (data_prep to_date dataf)).
Proof.
  unfold data_prep. fold leT leC sorted_tidy.
  apply (Permutation_NoDup
           (l := map counts_key (map agg_len (group_by key3_eq_dec tidy_key sorted_tidy)))).
  - apply Permutation_map, Permutation_sym, sort_perm.
  - rewrite map_map.
    rewrite (map_ext _ fst (fun g => counts_key_agg_len g)).
    apply group_by_NoDup.
Qed.

Lemma data_prep_sorted :
  StronglySorted (fun a b => opt_date_leb (Counts.date a) (Counts.date b) = true)
                 (data_prep to_date dataf).
Proof.
  unfold data_prep. fold leT leC sorted_tidy.
  apply (sort_sorted leC).
  - intros a b. apply opt_date_leb_total.
  - intros a b c. apply opt_date_leb_trans.
Qed.
End DataPrep.

(** C4.  Every row of counts has a date, has one of the 51 states as location,
    and stands for raw lines of country USA and host Homo sapiens only: one
    such line exists, and the count is the number of the lines with the row's
    key that have this country and this host, so that no line failing one of
    the four conditions of the filter is counted. *)
Theorem data_prep_filter_exhaustive {D : Type} (to_date : D -> option Z)
  (dataf : list (Line.t D)) (r : Counts.t) :
  In r (data_prep to_date dataf) ->
  (exists d, Counts.date r = Some d)
  /\ (exists s, Counts.location r = Some s /\ In s states)
  /\ List.length states = 51%nat
  /\ (exists x, In x dataf
                /\ line_key (cast to_date x) = counts_key r
                /\ Line.country x = Some "USA"%string
                /\ Line.host x = Some "Homo sapiens"%string)
  /\ Counts.count r
     = Z.of_nat (List.length
         (filter (fun x => col_eq (Line.country x) "USA"
                           && col_eq (Line.host x) "Homo sapiens"
                           && key3_eqb (line_key (cast to_date x)) (counts_key r)) dataf)).
Proof.
  intros Hr. apply data_prep_In in Hr. destruct Hr as [loc [d [c [-> Hne]]]].
  set (k := (loc, d, c)) in *.
  set (kept := filter keep (map (cast to_date) dataf)) in *.
  assert (Hy : exists y, In y kept /\ line_key y = k).
  { destruct (with_key key3_eq_dec line_key k kept) as [|y ys] eqn:E; [congruence|].
    exists y. apply (with_key_In key3_eq_dec line_key). rewrite E. left. reflexivity. }
  destruct Hy as [y [Hy Hk]]. apply kept_In in Hy. destruct Hy as [x [Hx [-> Hkeep]]].
  apply keep_true in Hkeep. destruct Hkeep as [Hc [[s [Hs Hin]] [[d' Hd] Hh]]].
  unfold line_key in Hk. subst k. injection Hk as E1 E2 E3.
  assert (Hloc : loc = Some s) by (rewrite <- Hs; symmetry; exact E1).
  assert (Hdate : d = Some d') by (rewrite <- Hd; symmetry; exact E2).
  cbn [Counts.date Counts.location Counts.count].
  split; [eauto|]. split; [eauto|]. split; [reflexivity|]. split.
  - exists x. unfold line_key, counts_key. cbn [Counts.date Counts.location Counts.clade].
    repeat split; [exact Hx| |exact Hc|exact Hh].
    rewrite <- E1, <- E2, <- E3. reflexivity.
  - unfold kept. rewrite group_size_raw. f_equal. f_equal.
    apply filter_ext. intros z. unfold counts_key, key3_eqb.
    cbn [Counts.date Counts.location Counts.clade].
    destruct (key3_eq_dec (line_key (cast to_date z)) (loc, d, c)) as [Ek|Nk];
      [|rewrite !andb_false_r; reflexivity].
    rewrite !andb_true_r. unfold keep.
    unfold line_key in Ek. injection Ek as F1 F2 F3.
    replace (is_in (Line.division (cast to_date z)) states) with true.
    2:{ symmetry. apply is_in_true. exists s. split; [|exact Hin].
        rewrite <- Hloc. exact F1. }
    replace (is_not_null (Line.date (cast to_date z))) with true.
    2:{ symmetry. apply is_not_null_true. exists d'. rewrite <- Hdate. exact F2. }
    rewrite !andb_true_r. reflexivity.
Qed.

(** C5.  No two rows of counts share (location, date, clade), and the count of
    a row is the number of raw lines that pass the filter and have its key. *)
Theorem data_prep_key_unique_count_exact {D : Type} (to_date : D -> option Z)
  (dataf : list (Line.t D)) :
  NoDup (map counts_key (data_prep to_date dataf))
  /\ forall r, In r (data_prep to_date dataf) ->
       Counts.count r
       = Z.of_nat (List.length
           (filter (fun x => keep (cast to_date x)
                             && key3_eqb (line_key (cast to_date x)) (counts_key r)) dataf)).
Proof.
  split; [apply data_prep_keys_NoDup|].
  intros r Hr. apply data_prep_In in Hr. destruct Hr as [loc [d [c [-> _]]]].
  simpl. rewrite group_size_raw. reflexivity.
Qed.

(** C7.  The dates of the rows of counts never decrease from the first row to
    the last: each row has a date, and it is at most the date of every later
    row. *)
Theorem data_prep_dates_ascending {D : Type} (to_date : D -> option Z)
  (dataf : list (Line.t D)) :
  StronglySorted
    (fun a b => exists x y, Counts.date a = Some x /\ Counts.date b = Some y /\ x <= y)
    (data_prep to_date dataf).
Proof.
  apply (StronglySorted_weaken
           (fun a b => opt_date_leb (Counts.date a) (Counts.date b) = true)
           _ (fun r => exists d, Counts.date r = Some d)).
  - intros a b [x Ha] [y Hb] H. rewrite Ha, Hb in H. simpl in H.
    exists x, y. repeat split; auto. lia.
  - apply Forall_forall. intros r Hr.
    apply (data_prep_has_date to_date dataf r Hr).
  - apply data_prep_sorted.
Qed.

(** ** The calendar *)

Lemma weekday_range d : 0 <= weekday d < 7.
Proof. unfold weekday. apply Z.mod_pos_bound. lia. Qed.

Lemma week_start_div d : week_start d = 7 * (d / 7).
Proof.
  unfold week_start, weekday.
  rewrite Z.add_mod_idemp_l by lia.
  replace (d + 6 + 1) with (d + 1 * 7) by lia.
  rewrite Z.mod_add by lia.
  pose proof (Z.div_mod d 7). lia.
Qed.

(** [week_start d] is a Sunday, it is at most six days before [d], and no
    later Sunday is on or before [d]. *)
Lemma week_start_sunday d : weekday (week_start d) = 6.
Proof.
  rewrite week_start_div. unfold weekday.
  replace (7 * (d / 7) + 6) with (6 + (d / 7) * 7) by lia.
  rewrite Z.mod_add by lia. reflexivity.
Qed.

Lemma week_start_bounds d : week_start d <= d < week_start d + 7.
Proof.
  rewrite week_start_div. pose proof (Z.div_mod d 7). pose proof (Z.mod_pos_bound d 7). lia.
Qed.

Lemma week_start_latest d s : weekday s = 6 -> s <= d -> s <= week_start d.
Proof.
  unfold weekday. intros Hs Hle. rewrite week_start_div.
  pose proof (Z.div_mod (s + 6) 7). rewrite Hs in H.
  assert (s = 7 * ((s + 6) / 7)) as -> by lia.
  apply Z.mul_le_mono_nonneg_l; [lia|].
  apply Z.div_le_lower_bound; lia.
Qed.

Lemma monday_on_or_before_monday d : weekday (monday_on_or_before d) = 0.
Proof.
  unfold monday_on_or_before, weekday.
  pose proof (Z.div_mod (d + 6) 7).
  replace (d - (d + 6) mod 7 + 6) with (0 + ((d + 6) / 7) * 7) by lia.
  rewrite Z.mod_add by lia. reflexivity.
Qed.

(** The Monday on or before a day is never the Sunday that starts its week:
    it is the day after that Sunday, or six days before it on a Sunday. *)
Lemma monday_vs_week_start d :
  monday_on_or_before d = if weekday d =? 6 then week_start d - 6 else week_start d + 1.
Proof.
  unfold monday_on_or_before, week_start.
  pose proof (weekday_range d).
  destruct (weekday d =? 6) eqn:E.
  - apply Z.eqb_eq in E. rewrite E. change ((6 + 1) mod 7) with 0. lia.
  - apply Z.eqb_neq in E. rewrite Z.mod_small by lia. lia.
Qed.

(** ** The window of [clades_to_model] *)

Lemma max_day_spec dataf day :
  max_day dataf = Some day ->
  (exists r, In r dataf /\ Counts.date r = Some day)
  /\ (forall r d, In r dataf -> Counts.date r = Some d -> d <= day).
Proof.
  revert day. induction dataf as [|r l IH]; simpl; intros day H; [discriminate|].
  destruct (Counts.date r) as [x|] eqn:Ex; destruct (max_day l) as [y|] eqn:Ey;
    simpl in H; try discriminate.
  - injection H as <-. destruct (IH y eq_refl) as [[r' [Hr' Hd']] Hmax]. split.
    + destruct (Z.max_spec x y) as [[_ ->]|[_ ->]]; [exists r'|exists r]; auto.
    + intros r0 d [<-|Hin] Hd; [rewrite Ex in Hd; injection Hd as <-; lia|].
      specialize (Hmax r0 d Hin Hd). lia.
  - injection H as <-. split; [exists r; auto|].
    intros r0 d [<-|Hin] Hd; [rewrite Ex in Hd; injection Hd as <-; lia|].
    exfalso. clear IH. induction l as [|a l IHl]; [exact Hin|]. simpl in Ey.
    destruct (Counts.date a) eqn:Ea; destruct (max_day l); simpl in Ey; try discriminate.
    destruct Hin as [<-|Hin]; [congruence|auto].
  - destruct (IH day H) as [[r' [Hr' Hd']] Hmax]. split; [exists r'; auto|].
    intros r0 d [<-|Hin] Hd; [congruence|eauto].
Qed.

Lemma max_day_None dataf :
  max_day dataf = None <-> forall r, In r dataf -> Counts.date r = None.
Proof.
  induction dataf as [|a l IH]; simpl.
  - split; [intros _ r []|reflexivity].
  - destruct (Counts.date a) eqn:Ea; destruct (max_day l) eqn:El; simpl.
    + split; [discriminate|]. intros H. specialize (H a (or_introl eq_refl)). congruence.
    + split; [discriminate|]. intros H. specialize (H a (or_introl eq_refl)). congruence.
    + split; [discriminate|]. intros H. apply IH. auto.
    + split; [|reflexivity]. intros _ r [<-|Hin]; [exact Ea|]. apply IH; auto.
Qed.

(** Where the cutoff is computed at all, it is the Monday on or before
    [max_day], moved back by [threshold_weeks] weeks. *)
Lemma three_sundays_ago_Ok dataf threshold_weeks cutoff :
  three_sundays_ago dataf threshold_weeks = Ok cutoff ->
  exists day, max_day dataf = Some day
              /\ cutoff = monday_on_or_before day - 7 * threshold_weeks.
Proof.
  unfold three_sundays_ago, timedelta, date_sub, monday_on_or_before.
  destruct (max_day dataf) as [day|]; [|discriminate].
  destruct (Z.abs _ <=? _); simpl; [|discriminate].
  destruct (_ && _); [|discriminate].
  intros H. injection H as <-. exists day. split; [reflexivity|lia].
Qed.

Lemma three_sundays_ago_is_monday dataf threshold_weeks cutoff :
  three_sundays_ago dataf threshold_weeks = Ok cutoff -> weekday cutoff = 0.
Proof.
  intros H. apply three_sundays_ago_Ok in H. destruct H as [day [_ ->]].
  pose proof (monday_on_or_before_monday day) as M. unfold weekday in *.
  replace (monday_on_or_before day - 7 * threshold_weeks + 6)
    with (monday_on_or_before day + 6 + (- threshold_weeks) * 7) by lia.
  rewrite Z.mod_add by lia. exact M.
Qed.

(** The cutoff is never the Sunday of the week of [max_day] moved back by
    [threshold_weeks] weeks. *)
Lemma three_sundays_ago_not_sunday dataf threshold_weeks cutoff day :
  three_sundays_ago dataf threshold_weeks = Ok cutoff ->
  max_day dataf = Some day ->
  cutoff <> week_start day - 7 * threshold_weeks.
Proof.
  intros H Hmax. apply three_sundays_ago_Ok in H. destruct H as [day' [Hmax' ->]].
  rewrite Hmax in Hmax'. injection Hmax' as <-.
  rewrite monday_vs_week_start. destruct (weekday day =? 6); lia.
Qed.

Lemma three_sundays_ago_total dataf threshold_weeks day :
  max_day dataf = Some day ->
  0 <= threshold_weeks ->
  day <= MAXORDINAL ->
  weekday day + 7 * threshold_weeks < day ->
  three_sundays_ago dataf threshold_weeks
  = Ok (monday_on_or_before day - 7 * threshold_weeks).
Proof.
  intros Hmax Htw Hday Hlt. unfold three_sundays_ago, timedelta, date_sub.
  rewrite Hmax. pose proof (weekday_range day) as W. unfold MAXORDINAL in *.
  replace (Z.abs _ <=? 999999999) with true by (symmetry; apply Z.leb_le; lia).
  cbn [bind].
  replace (0 <? _) with true by (symmetry; apply Z.ltb_lt; lia).
  replace (_ <=? 3652059) with true by (symmetry; apply Z.leb_le; lia).
  cbn [andb]. f_equal. unfold monday_on_or_before. lia.
Qed.

(** ** The weekly frame *)

Lemma group_by_ext {A K : Type} (K_eq_dec : forall a b : K, {a = b} + {a <> b})
  (key key' : A -> K) (l : list A) :
  (forall x, In x l -> key x = key' x) ->
  group_by K_eq_dec key l = group_by K_eq_dec key' l.
Proof.
  unfold group_by. generalize (@nil (K * list A)) as acc.
  induction l as [|x l IH]; intros acc H; [reflexivity|]. simpl.
  assert (E : group_insert K_eq_dec key x acc = group_insert K_eq_dec key' x acc).
  { pose proof (H x (or_introl eq_refl)) as Hx.
    induction acc as [|[k m] rest IHacc]; simpl; [congruence|].
    rewrite Hx, IHacc. reflexivity. }
  rewrite E. apply IH. intros y Hy. apply H. right. exact Hy.
Qed.

(** A window counted in weeks from a Sunday is labelled by the Sunday on or
    before each of its days. *)
Lemma window_label d0 d :
  week_start d0 + 7 * ((d - week_start d0) / 7) = week_start d.
Proof.
  rewrite !week_start_div.
  replace (d - 7 * (d0 / 7)) with (d + (- (d0 / 7)) * 7) by lia.
  rewrite Z.div_add by lia. lia.
Qed.

Lemma windows_spec c rs :
  windows (c, rs)
  = map (fun w => Weekly.mk c (fst w) (sum (map Counts.count (snd w))))
        (group_by Z.eq_dec (fun r => week_start (the_date r)) rs).
Proof.
  unfold windows. cbn [fst snd]. destruct rs as [|first rest]; [reflexivity|].
  f_equal. apply group_by_ext. intros x _. apply window_label.
Qed.

Lemma cell_nil_of_clade c week rows :
  with_key opt_string_eq_dec Counts.clade c rows = [] -> cell c week rows = [].
Proof. unfold cell. intros ->. reflexivity. Qed.

Lemma cell_In c week rows r :
  In r (cell c week rows) <->
  In r rows /\ Counts.clade r = c /\ week_start (the_date r) = week.
Proof. unfold cell. rewrite !with_key_In. tauto. Qed.

Lemma group_by_dynamic_Ok rows df :
  group_by_dynamic rows = Ok df ->
  df = flat_map windows (group_by opt_string_eq_dec Counts.clade rows).
Proof.
  unfold group_by_dynamic. destruct (_ && _); [|discriminate]. congruence.
Qed.

(** A row of the weekly frame is the sum of the counts of one non-empty cell. *)
Lemma group_by_dynamic_In rows df w :
  group_by_dynamic rows = Ok df ->
  (In w df <->
   cell (Weekly.clade w) (Weekly.date w) rows <> []
   /\ Weekly.count w = sum (map Counts.count (cell (Weekly.clade w) (Weekly.date w) rows))).
Proof.
  intros H. apply group_by_dynamic_Ok in H. subst df.
  rewrite in_flat_map. split.
  - intros [[c rs] [Hg Hw]]. apply group_by_In in Hg. destruct Hg as [-> Hne].
    rewrite windows_spec in Hw. apply in_map_iff in Hw.
    destruct Hw as [[week xs] [<- Hx]]. apply group_by_In in Hx.
    destruct Hx as [-> Hne']. cbn [fst snd Weekly.clade Weekly.date Weekly.count].
    split; [exact Hne'|reflexivity].
  - intros [Hne Hsum]. destruct w as [c week n]. cbn in Hne, Hsum.
    exists (c, with_key opt_string_eq_dec Counts.clade c rows). split.
    + apply group_by_In. split; [reflexivity|].
      intros E. apply Hne. apply cell_nil_of_clade. exact E.
    + rewrite windows_spec. apply in_map_iff. exists (week, cell c week rows). split.
      * cbn [fst snd]. congruence.
      * apply group_by_In. split; [reflexivity|exact Hne].
Qed.

Lemma ascending_cons a b l : ascending (a :: b :: l) = (a <=? b) && ascending (b :: l).
Proof. reflexivity. Qed.

Lemma StronglySorted_ascending rows :
  (forall r, In r rows -> Counts.date r <> None) ->
  StronglySorted (fun a b => opt_date_leb (Counts.date a) (Counts.date b) = true) rows ->
  ascending (map the_date rows) = true.
Proof.
  intros Hd Hs. induction Hs as [|a l Hs IH Hall]; [reflexivity|].
  destruct l as [|b l']; [reflexivity|].
  cbn [map] in IH |- *. rewrite ascending_cons.
  rewrite IH by (intros r Hr; apply Hd; right; exact Hr).
  rewrite andb_true_r. inversion Hall as [|? ? Hab _]; subst.
  unfold the_date. pose proof (Hd a (or_introl eq_refl)). pose proof (Hd b (or_intror (or_introl eq_refl))).
  destruct (Counts.date a), (Counts.date b); try congruence. exact Hab.
Qed.

(** On rows that all have a date and are sorted by date, the dynamic grouping
    goes through. *)
Lemma group_by_dynamic_total rows :
  (forall r, In r rows -> Counts.date r <> None) ->
  StronglySorted (fun a b => opt_date_leb (Counts.date a) (Counts.date b) = true) rows ->
  exists df, group_by_dynamic rows = Ok df.
Proof.
  intros Hd Hs. unfold group_by_dynamic.
  replace (forallb (fun r => is_not_null (Counts.date r)) rows) with true.
  2:{ symmetry. apply forallb_forall. intros r Hr. specialize (Hd r Hr).
      destruct (Counts.date r); [reflexivity|congruence]. }
  replace (forallb _ (group_by opt_string_eq_dec Counts.clade rows)) with true.
  2:{ symmetry. apply forallb_forall. intros [c rs] Hg. apply group_by_In in Hg.
      destruct Hg as [-> _]. cbn [snd]. apply StronglySorted_ascending.
      - intros r Hr. apply with_key_In in Hr. apply Hd, Hr.
      - apply StronglySorted_filter. exact Hs. }
  cbn [andb]. eauto.
Qed.

Lemma weekly_Ok dataf threshold_weeks df :
  weekly dataf threshold_weeks = Ok df ->
  exists cutoff, three_sundays_ago dataf threshold_weeks = Ok cutoff
                 /\ group_by_dynamic (window cutoff dataf) = Ok df.
Proof.
  unfold weekly. destruct (three_sundays_ago dataf threshold_weeks) as [cutoff|e];
    [|discriminate].
  cbn [bind]. eauto.
Qed.

Lemma date_ge_true cutoff r :
  date_ge cutoff r = true <-> exists d, Counts.date r = Some d /\ cutoff <= d.
Proof.
  unfold date_ge. destruct (Counts.date r) as [d|].
  - rewrite Z.leb_le. split; [eauto|]. intros [d' [E H]]. congruence.
  - split; [discriminate|]. intros [d' [E _]]. discriminate.
Qed.

(** For a frame with a date, sorted by date, and a cutoff that Python can
    represent, the weekly frame is computed. *)
Lemma weekly_total dataf threshold_weeks day :
  max_day dataf = Some day ->
  0 <= threshold_weeks ->
  day <= MAXORDINAL ->
  weekday day + 7 * threshold_weeks < day ->
  StronglySorted (fun a b => opt_date_leb (Counts.date a) (Counts.date b) = true) dataf ->
  exists df, weekly dataf threshold_weeks = Ok df.
Proof.
  intros Hmax Htw Hday Hlt Hs. unfold weekly.
  rewrite (three_sundays_ago_total _ _ _ Hmax Htw Hday Hlt). cbn [bind].
  apply group_by_dynamic_total.
  - intros r Hr. apply filter_In in Hr. destruct Hr as [_ Hr].
    apply date_ge_true in Hr. destruct Hr as [d [-> _]]. discriminate.
  - apply StronglySorted_filter. exact Hs.
Qed.

(** ** Sums *)

Lemma sum_app l1 l2 : sum (l1 ++ l2) = sum l1 + sum l2.
Proof. induction l1 as [|x l IH]; simpl; lia. Qed.

Lemma sum_pos l : (forall x, In x l -> 1 <= x) -> l <> [] -> 1 <= sum l.
Proof.
  intros H Hne. destruct l as [|x l]; [congruence|]. simpl.
  assert (0 <= sum l).
  { clear Hne. induction l as [|y l IH]; simpl; [lia|].
    assert (1 <= y) by (apply H; right; left; reflexivity).
    assert (0 <= sum l); [|lia].
    apply IH. intros z [<-|Hz]; apply H; [left|right; right]; auto. }
  specialize (H x (or_introl eq_refl)). lia.
Qed.

Lemma sum_ge_member l y : (forall x, In x l -> 0 <= x) -> In y l -> y <= sum l.
Proof.
  induction l as [|x l IH]; simpl; intros H Hin; [contradiction|].
  destruct Hin as [<-|Hy].
  - assert (0 <= sum l); [|lia]. clear IH.
    induction l as [|z l IHl]; simpl; [lia|].
    assert (0 <= z) by (apply H; right; left; reflexivity).
    assert (0 <= sum l); [|lia]. apply IHl. intros w [<-|Hw]; apply H; simpl; auto.
  - assert (0 <= x) by (apply H; left; reflexivity).
    assert (y <= sum l); [|lia]. apply IH; auto.
Qed.

Lemma sum_Permutation l l' : Permutation l l' -> sum l = sum l'.
Proof.
  induction 1 as [|x l l' _ IH|x y l|l l' l'' _ IH1 _ IH2]; simpl; lia.
Qed.

Lemma sum_ones {A : Type} (l : list A) : sum (map (fun _ => 1) l) = Z.of_nat (List.length l).
Proof. induction l as [|x l IH]; [reflexivity|]. cbn [map sum fold_right List.length]. unfold sum in IH. lia. Qed.

Lemma sum_filter_le {A : Type} (f : A -> Z) (keep_it : A -> bool) (l : list A) :
  (forall x, In x l -> 0 <= f x) ->
  0 <= sum (map f (filter keep_it l)) <= sum (map f l).
Proof.
  induction l as [|x l IH]; simpl; intros H; [lia|].
  assert (0 <= f x) by (apply H; left; reflexivity).
  assert (0 <= sum (map f (filter keep_it l)) <= sum (map f l)) as IH'
    by (apply IH; intros y Hy; apply H; right; exact Hy).
  destruct (keep_it x); simpl; lia.
Qed.

Section GroupSums.
Context {A K : Type}.
Variable K_eq_dec : forall a b : K, {a = b} + {a <> b}.
Variable key : A -> K.
Variable f : A -> Z.

Let total (g : K * list A) : Z := sum (map f (snd g)).

Lemma sum_group_insert x gs :
  sum (map total (group_insert K_eq_dec key x gs)) = sum (map total gs) + f x.
Proof.
  induction gs as [|[k m] rest IH]; simpl.
  - unfold total. simpl. lia.
  - destruct (K_eq_dec (key x) k); simpl.
    + unfold total at 1 3. cbn [snd]. rewrite map_app, sum_app. simpl. lia.
    + rewrite IH. lia.
Qed.

(** The sums of the groups add up to the sum of the frame. *)
Lemma sum_group_by l :
  sum (map total (group_by K_eq_dec key l)) = sum (map f l).
Proof.
  induction l as [|x l IH] using rev_ind; [reflexivity|].
  rewrite group_by_snoc, sum_group_insert, IH, map_app, sum_app. simpl. lia.
Qed.
End GroupSums.

(** ** Weekly totals and proportions *)

Lemma filter_keyed_singleton {K V : Type} (K_eq_dec : forall a b : K, {a = b} + {a <> b})
  (gs : list (K * V)) (k : K) (v : V) :
  NoDup (map fst gs) -> In (k, v) gs ->
  filter (fun g => if K_eq_dec (fst g) k then true else false) gs = [(k, v)].
Proof.
  induction gs as [|[k' v'] rest IH]; simpl; intros ND Hin; [contradiction|].
  inversion ND as [|? ? Hnotin ND']; subst.
  destruct Hin as [E|Hin].
  - injection E as -> ->. destruct (K_eq_dec k k); [|congruence]. f_equal.
    clear IH ND ND'. induction rest as [|[k2 v2] rest IHr]; simpl; [reflexivity|].
    destruct (K_eq_dec k2 k) as [->|N].
    + exfalso. apply Hnotin. left. reflexivity.
    + apply IHr. intros H. apply Hnotin. right. exact H.
  - destruct (K_eq_dec k' k) as [->|N].
    + exfalso. apply Hnotin. apply (in_map fst) in Hin. exact Hin.
    + apply IH; assumption.
Qed.

Lemma filter_map_swap' {A B : Type} (f : B -> bool) (g : A -> B) (l : list A) :
  filter f (map g l) = map g (filter (fun x => f (g x)) l).
Proof.
  induction l as [|x l IH]; simpl; [reflexivity|].
  destruct (f (g x)); simpl; congruence.
Qed.

Lemma flat_map_ext_in {A B : Type} (f g : A -> list B) (l : list A) :
  (forall x, In x l -> f x = g x) -> flat_map f l = flat_map g l.
Proof.
  induction l as [|x l IH]; simpl; intros H; [reflexivity|].
  rewrite (H x (or_introl eq_refl)), IH; [reflexivity|].
  intros y Hy. apply H. right. exact Hy.
Qed.

Lemma flat_map_singleton {A B : Type} (f : A -> B) (l : list A) :
  flat_map (fun x => [f x]) l = map f l.
Proof. induction l as [|x l IH]; simpl; congruence. Qed.

(** The join pairs every weekly row with the one total of its week. *)
Lemma join_total_counts df :
  join df (total_counts df)
  = map (fun w => (w, Total.mk (Weekly.date w) (week_total df (Weekly.date w)))) df.
Proof.
  unfold join. rewrite <- flat_map_singleton. apply flat_map_ext_in.
  intros w Hw. unfold total_counts. rewrite filter_map_swap'. cbn [Total.date].
  pose proof (group_by_complete Z.eq_dec Weekly.date df w Hw) as Hg.
  rewrite (filter_ext _ (fun g => if Z.eq_dec (fst g) (Weekly.date w) then true else false)).
  2:{ intros g. destruct (Z.eq_dec (fst g) (Weekly.date w)) as [E|N].
      - apply Z.eqb_eq. exact E.
      - apply Z.eqb_neq. exact N. }
  rewrite (filter_keyed_singleton Z.eq_dec _ _ _ (group_by_NoDup Z.eq_dec Weekly.date df) Hg).
  reflexivity.
Qed.

Lemma prop_dat_map df :
  prop_dat df
  = map (fun w => let total_count := week_total df (Weekly.date w) in
                  PropDat.mk (Weekly.clade w) (Weekly.date w) (Weekly.count w) total_count
                    (f64_div (to_f64 (Weekly.count w)) (to_f64 total_count))) df.
Proof.
  unfold prop_dat. rewrite join_total_counts, map_map. reflexivity.
Qed.

Lemma weekly_count_pos dataf threshold_weeks df w :
  weekly dataf threshold_weeks = Ok df ->
  (forall r, In r dataf -> 1 <= Counts.count r) ->
  In w df -> 1 <= Weekly.count w.
Proof.
  intros H Hpos Hw. apply weekly_Ok in H. destruct H as [cutoff [_ H]].
  apply (group_by_dynamic_In _ _ w H) in Hw. destruct Hw as [Hne ->].
  apply sum_pos.
  - intros x Hx. apply in_map_iff in Hx. destruct Hx as [r [<- Hr]].
    apply cell_In in Hr. destruct Hr as [Hr _]. apply filter_In in Hr. apply Hpos, Hr.
  - intros E. apply map_eq_nil in E. contradiction.
Qed.

Lemma prop_dat_In df p :
  In p (prop_dat df) <->
  exists w, In w df
            /\ p = PropDat.mk (Weekly.clade w) (Weekly.date w) (Weekly.count w)
                     (week_total df (Weekly.date w))
                     (f64_div (to_f64 (Weekly.count w))
                              (to_f64 (week_total df (Weekly.date w)))).
Proof.
  rewrite prop_dat_map, in_map_iff. split.
  - intros [w [<- Hw]]. exists w. split; [exact Hw|reflexivity].
  - intros [w [Hw ->]]. exists w. split; [reflexivity|exact Hw].
Qed.

(** With counts of at least one in the input, every weekly total is at least
    the count of each of its rows, which is at least one. *)
Lemma prop_dat_total_pos dataf threshold_weeks df p :
  weekly dataf threshold_weeks = Ok df ->
  (forall r, In r dataf -> 1 <= Counts.count r) ->
  In p (prop_dat df) ->
  PropDat.total_count p = week_total df (PropDat.date p)
  /\ (exists w, In w df /\ Weekly.date w = PropDat.date p)
  /\ 1 <= PropDat.count p <= PropDat.total_count p.
Proof.
  intros H Hpos Hp. apply prop_dat_In in Hp. destruct Hp as [w [Hw ->]].
  cbn [PropDat.total_count PropDat.date PropDat.count].
  split; [reflexivity|]. split; [exists w; auto|].
  pose proof (weekly_count_pos _ _ _ w H Hpos Hw) as Hc. split; [exact Hc|].
  unfold week_total. apply sum_ge_member.
  - intros x Hx. apply in_map_iff in Hx. destruct Hx as [w' [<- Hw']].
    apply with_key_In in Hw'. destruct Hw' as [Hw' _].
    pose proof (weekly_count_pos _ _ _ w' H Hpos Hw'). lia.
  - apply in_map. apply with_key_In. auto.
Qed.

(** C8.  Run on the counts that [data_prep] produces, the proportion of every
    row of [prop_dat] divides by the sum of the counts of the weekly groups of
    that same week, and this sum is at least the count of the row, which is at
    least one: the divisor is never zero. *)
Theorem proportion_divisor_positive {D : Type} (to_date : D -> option Z)
  (raw : list (Line.t D)) (threshold_weeks : Z) (df : list Weekly.t) (p : PropDat.t) :
  weekly (data_prep to_date raw) threshold_weeks = Ok df ->
  In p (prop_dat df) ->
  PropDat.total_count p = week_total df (PropDat.date p)
  /\ (exists w, In w df /\ Weekly.date w = PropDat.date p)
  /\ 1 <= PropDat.count p <= PropDat.total_count p
  /\ PropDat.proportion p
     = f64_div (to_f64 (PropDat.count p)) (to_f64 (PropDat.total_count p)).
Proof.
  intros H Hp.
  destruct (prop_dat_total_pos _ _ _ p H (data_prep_count_pos to_date raw) Hp)
    as [Ht [Hw Hc]].
  repeat split; try assumption; try apply Hc.
  apply prop_dat_In in Hp. destruct Hp as [w [_ ->]]. reflexivity.
Qed.

(** ** The clade totals over the window *)

Lemma windows_clade c c' rs :
  with_key opt_string_eq_dec Weekly.clade c (windows (c', rs))
  = if opt_string_eq_dec c' c then windows (c', rs) else [].
Proof.
  rewrite windows_spec. unfold with_key.
  induction (group_by Z.eq_dec (fun r => week_start (the_date r)) rs) as [|g gs IH];
    cbn [map filter Weekly.clade]; [destruct (opt_string_eq_dec c' c); reflexivity|].
  rewrite IH. destruct (opt_string_eq_dec c' c); reflexivity.
Qed.

Lemma windows_sum c rs :
  sum (map Weekly.count (windows (c, rs))) = sum (map Counts.count rs).
Proof.
  rewrite windows_spec, map_map. cbn [Weekly.count].
  apply (sum_group_by Z.eq_dec (fun r => week_start (the_date r)) Counts.count).
Qed.

Lemma filter_keyed_nil {K V : Type} (K_eq_dec : forall a b : K, {a = b} + {a <> b})
  (gs : list (K * V)) (k : K) :
  ~ In k (map fst gs) ->
  filter (fun g => if K_eq_dec (fst g) k then true else false) gs = [].
Proof.
  induction gs as [|[k' v] rest IH]; simpl; intros H; [reflexivity|].
  destruct (K_eq_dec k' k) as [->|N]; [exfalso; apply H; left; reflexivity|].
  apply IH. intros Hin. apply H. right. exact Hin.
Qed.

Lemma flat_windows_sum c gs :
  sum (map Weekly.count (with_key opt_string_eq_dec Weekly.clade c (flat_map windows gs)))
  = sum (map (fun g => sum (map Counts.count (snd g)))
             (filter (fun g => if opt_string_eq_dec (fst g) c then true else false) gs)).
Proof.
  induction gs as [|[c' rs] rest IH]; [reflexivity|].
  cbn [flat_map filter fst]. rewrite with_key_app, map_app, sum_app, IH, windows_clade.
  destruct (opt_string_eq_dec c' c); cbn [map sum fold_right snd].
  - rewrite windows_sum. reflexivity.
  - reflexivity.
Qed.

(** Summed over its weeks, a clade has in the weekly frame the count it has
    in the rows from which the frame was built. *)
Lemma weekly_clade_total rows df c :
  group_by_dynamic rows = Ok df ->
  sum (map Weekly.count (with_key opt_string_eq_dec Weekly.clade c df))
  = window_count rows c.
Proof.
  intros H. apply group_by_dynamic_Ok in H. subst df.
  rewrite flat_windows_sum. unfold window_count.
  destruct (with_key opt_string_eq_dec Counts.clade c rows) as [|r rs] eqn:E.
  - rewrite filter_keyed_nil; [reflexivity|].
    intros Hin. apply group_by_keys in Hin. destruct Hin as [x [Hx Hk]].
    assert (In x (with_key opt_string_eq_dec Counts.clade c rows)) as Hin
      by (apply with_key_In; auto).
    rewrite E in Hin. exact Hin.
  - rewrite (filter_keyed_singleton opt_string_eq_dec _ c (r :: rs)).
    + cbn [map snd sum fold_right]. lia.
    + apply group_by_NoDup.
    + apply group_by_In. split; [congruence|discriminate].
Qed.

Lemma prop_dat_clade_total df c :
  sum (map PropDat.count (with_key opt_string_eq_dec PropDat.clade c (prop_dat df)))
  = sum (map Weekly.count (with_key opt_string_eq_dec Weekly.clade c df)).
Proof.
  rewrite prop_dat_map, with_key_map, map_map. reflexivity.
Qed.

Lemma clade_counts_In prop c n :
  In (c, n) (clade_counts prop) <->
  with_key opt_string_eq_dec PropDat.clade c prop <> []
  /\ n = sum (map PropDat.count (with_key opt_string_eq_dec PropDat.clade c prop)).
Proof.
  unfold clade_counts. rewrite in_map_iff. split.
  - intros [[c' xs] [E Hg]]. cbn [fst snd] in E. injection E as -> <-.
    apply group_by_In in Hg. destruct Hg as [-> Hne]. auto.
  - intros [Hne ->]. exists (c, with_key opt_string_eq_dec PropDat.clade c prop).
    split; [reflexivity|]. apply group_by_In. auto.
Qed.

Lemma clade_counts_keys prop :
  map fst (clade_counts prop) = map fst (group_by opt_string_eq_dec PropDat.clade prop).
Proof. unfold clade_counts. rewrite map_map. reflexivity. Qed.

(** ** Ranking by count *)

Lemma StronglySorted_app_inv {A : Type} (R : A -> A -> Prop) (l1 l2 : list A) :
  StronglySorted R (l1 ++ l2) -> forall a b, In a l1 -> In b l2 -> R a b.
Proof.
  induction l1 as [|x l1 IH]; simpl; intros Hs a b Ha Hb; [contradiction|].
  inversion Hs as [|? ? Hs' Hall]; subst.
  destruct Ha as [<-|Ha]; [|apply IH; assumption].
  rewrite Forall_forall in Hall. apply Hall, in_or_app. right. exact Hb.
Qed.

Lemma StronglySorted_firstn {A : Type} (R : A -> A -> Prop) (n : nat) (l : list A) :
  StronglySorted R l -> StronglySorted R (firstn n l).
Proof.
  revert l. induction n as [|n IH]; intros l Hs; [constructor|].
  destruct l as [|x l]; [constructor|]. simpl.
  inversion Hs as [|? ? Hs' Hall]; subst. constructor; [apply IH, Hs'|].
  rewrite Forall_forall in Hall |- *. intros y Hy. apply Hall.
  rewrite <- (firstn_skipn n l). apply in_or_app. left. exact Hy.
Qed.

Lemma StronglySorted_map {A B : Type} (R : B -> B -> Prop) (f : A -> B) (l : list A) :
  StronglySorted (fun a b => R (f a) (f b)) l -> StronglySorted R (map f l).
Proof.
  induction 1 as [|x l Hs IH Hall]; simpl; constructor; [exact IH|].
  rewrite Forall_forall in Hall |- *. intros y Hy.
  apply in_map_iff in Hy. destruct Hy as [z [<- Hz]]. apply Hall, Hz.
Qed.

Lemma NoDup_firstn {A : Type} (n : nat) (l : list A) : NoDup l -> NoDup (firstn n l).
Proof.
  intros H. rewrite <- (firstn_skipn n l) in H. apply NoDup_app_remove_r in H. exact H.
Qed.

Section Ranking.
Context {K : Type}.
Variable T : K -> Z.
Variable l : list (K * Z).
Hypothesis keys_NoDup : NoDup (map fst l).
Hypothesis values : forall k v, In (k, v) l -> v = T k.
Variable n : nat.

Let leb (a b : K * Z) : bool := snd a <=? snd b.
Let ranked : list (K * Z) := sort leb l.
Let top : list K := firstn n (map fst ranked).

Lemma ranked_perm : Permutation ranked l.
Proof. apply sort_perm. Qed.

Lemma ranked_sorted : StronglySorted (fun a b => snd a <= snd b) ranked.
Proof.
  apply (StronglySorted_weaken (fun a b => leb a b = true) _ (fun _ => True)).
  - intros a b _ _ H. apply Z.leb_le. exact H.
  - apply Forall_forall. auto.
  - apply sort_sorted.
    + intros a b. unfold leb. rewrite !Z.leb_le. lia.
    + intros a b c. unfold leb. rewrite !Z.leb_le. lia.
Qed.

Lemma top_length : List.length top = Nat.min n (List.length l).
Proof.
  unfold top. rewrite length_firstn, length_map, (Permutation_length ranked_perm).
  reflexivity.
Qed.

Lemma top_NoDup : NoDup top.
Proof.
  apply NoDup_firstn.
  apply (Permutation_NoDup (l := map fst l)); [|exact keys_NoDup].
  apply Permutation_map, Permutation_sym, ranked_perm.
Qed.

Lemma top_In k : In k top -> In k (map fst l).
Proof.
  intros H. unfold top in H.
  assert (In k (map fst ranked)) as H'.
  { rewrite <- (firstn_skipn n (map fst ranked)). apply in_or_app. left. exact H. }
  apply (Permutation_in _ (Permutation_map fst ranked_perm)). exact H'.
Qed.

Lemma ranked_value a : In a ranked -> snd a = T (fst a).
Proof.
  intros H. apply (Permutation_in _ ranked_perm) in H.
  destruct a as [k v]. apply values. exact H.
Qed.

Lemma top_sorted : StronglySorted (fun a b => T a <= T b) top.
Proof.
  apply StronglySorted_firstn, StronglySorted_map.
  apply (StronglySorted_weaken (fun a b => snd a <= snd b) _ (fun a => In a ranked)).
  - intros a b Ha Hb H. rewrite <- !ranked_value by assumption. exact H.
  - apply Forall_forall. auto.
  - apply ranked_sorted.
Qed.

Lemma top_least k k' :
  In k top -> In k' (map fst l) -> ~ In k' top -> T k <= T k'.
Proof.
  unfold top. rewrite firstn_map. intros Hk Hk' Hnot.
  apply in_map_iff in Hk. destruct Hk as [[k0 v] [E Hin]]. cbn [fst] in E. subst k0.
  apply in_map_iff in Hk'. destruct Hk' as [[k0 v'] [E Hin']]. cbn [fst] in E. subst k0.
  apply (Permutation_in _ (Permutation_sym ranked_perm)) in Hin'.
  assert (Hv : In (k, v) ranked).
  { rewrite <- (firstn_skipn n ranked). apply in_or_app. left. exact Hin. }
  pose proof (ranked_value _ Hv) as Ev. pose proof (ranked_value _ Hin') as Ev'.
  cbn [fst snd] in Ev, Ev'. rewrite <- Ev, <- Ev'.
  rewrite <- (firstn_skipn n ranked) in Hin'. apply in_app_or in Hin'.
  destruct Hin' as [Hin'|Hin'].
  - exfalso. apply Hnot. apply (in_map fst) in Hin'. exact Hin'.
  - pose proof ranked_sorted as Hs. rewrite <- (firstn_skipn n ranked) in Hs.
    apply (StronglySorted_app_inv _ _ _ Hs (k, v) (k', v') Hin Hin').
Qed.
End Ranking.

(** ** The result of [clades_to_model] *)

Lemma clades_to_model_Ok dataf threshold threshold_weeks df :
  weekly dataf threshold_weeks = Ok df ->
  clades_to_model dataf threshold threshold_weeks
  = Ok (if (9 <? List.length (high_prev_variants threshold (prop_dat df)))%nat
        then nine_by_count (prop_dat df)
        else high_prev_variants threshold (prop_dat df)).
Proof. intros H. unfold clades_to_model. rewrite H. reflexivity. Qed.

Lemma clades_to_model_inv dataf threshold threshold_weeks l :
  clades_to_model dataf threshold threshold_weeks = Ok l ->
  exists df, weekly dataf threshold_weeks = Ok df.
Proof.
  unfold clades_to_model. destruct (weekly dataf threshold_weeks) as [df|e]; [eauto|].
  discriminate.
Qed.

Lemma high_prev_variants_In threshold prop v :
  In v (high_prev_variants threshold prop) <->
  exists p, In p prop /\ PropDat.clade p = v
            /\ f64_gt (PropDat.proportion p) threshold = true.
Proof.
  unfold high_prev_variants, unique. rewrite nodup_In, in_map_iff. split.
  - intros [p [E Hp]]. apply filter_In in Hp. exists p. tauto.
  - intros [p [Hp [E Hgt]]]. exists p. split; [exact E|]. apply filter_In. auto.
Qed.

Lemma high_prev_variants_NoDup threshold prop : NoDup (high_prev_variants threshold prop).
Proof. apply NoDup_nodup. Qed.

(** The test of the branch: more than nine distinct clades above the
    threshold. *)
Lemma more_than_nine threshold prop vs :
  NoDup vs -> (9 < List.length vs)%nat ->
  (forall v, In v vs -> exists p, In p prop /\ PropDat.clade p = v
                                  /\ f64_gt (PropDat.proportion p) threshold = true) ->
  (9 <? List.length (high_prev_variants threshold prop))%nat = true.
Proof.
  intros ND Hlen Hvs. apply Nat.ltb_lt.
  apply (Nat.lt_le_trans _ _ _ Hlen). apply NoDup_incl_length; [exact ND|].
  intros v Hv. apply high_prev_variants_In, Hvs, Hv.
Qed.

Lemma clade_counts_NoDup prop : NoDup (map fst (clade_counts prop)).
Proof. rewrite clade_counts_keys. apply group_by_NoDup. Qed.

Lemma clade_counts_key_In prop c :
  In c (map fst (clade_counts prop)) <-> exists p, In p prop /\ PropDat.clade p = c.
Proof. rewrite clade_counts_keys. apply group_by_keys. Qed.

Lemma nine_by_count_length prop : (List.length (nine_by_count prop) <= 9)%nat.
Proof. unfold nine_by_count. apply firstn_le_length. Qed.

Lemma nine_by_count_NoDup prop : NoDup (nine_by_count prop).
Proof. unfold nine_by_count. apply top_NoDup. apply clade_counts_NoDup. Qed.

(** Whatever list is returned has at most nine entries, all distinct. *)
Lemma clades_to_model_result dataf threshold threshold_weeks l :
  clades_to_model dataf threshold threshold_weeks = Ok l ->
  (List.length l <= 9)%nat /\ NoDup l.
Proof.
  intros H. destruct (clades_to_model_inv _ _ _ _ H) as [df Hdf].
  rewrite (clades_to_model_Ok _ threshold _ _ Hdf) in H. injection H as <-.
  destruct (9 <? _)%nat eqn:E.
  - split; [apply nine_by_count_length|apply nine_by_count_NoDup].
  - apply Nat.ltb_ge in E. split; [exact E|apply high_prev_variants_NoDup].
Qed.

(** The clades of the proportion frame are the clades of the window. *)
Lemma prop_dat_clades dataf threshold_weeks cutoff df c :
  three_sundays_ago dataf threshold_weeks = Ok cutoff ->
  weekly dataf threshold_weeks = Ok df ->
  ((exists p, In p (prop_dat df) /\ PropDat.clade p = c)
   <-> exists r, In r (window cutoff dataf) /\ Counts.clade r = c).
Proof.
  intros Hc H. apply weekly_Ok in H. destruct H as [cutoff' [Hc' H]].
  rewrite Hc in Hc'. injection Hc' as <-. split.
  - intros [p [Hp <-]]. apply prop_dat_In in Hp. destruct Hp as [w [Hw ->]].
    apply (group_by_dynamic_In _ _ w H) in Hw. destruct Hw as [Hne _].
    destruct (cell (Weekly.clade w) (Weekly.date w) (window cutoff dataf)) as [|r rs] eqn:E;
      [congruence|].
    assert (In r (cell (Weekly.clade w) (Weekly.date w) (window cutoff dataf))) as Hr
      by (rewrite E; left; reflexivity).
    apply cell_In in Hr. exists r. tauto.
  - intros [r [Hr <-]].
    set (w := Weekly.mk (Counts.clade r) (week_start (the_date r))
                (sum (map Counts.count
                      (cell (Counts.clade r) (week_start (the_date r)) (window cutoff dataf))))).
    assert (In w df) as Hw.
    { apply (group_by_dynamic_In _ _ w H). cbn [w Weekly.clade Weekly.date Weekly.count].
      split; [|reflexivity]. intros E.
      assert (In r (cell (Counts.clade r) (week_start (the_date r)) (window cutoff dataf)))
        as Hin by (apply cell_In; auto).
      rewrite E in Hin. exact Hin. }
    eexists. split; [apply prop_dat_In; exists w; split; [exact Hw|reflexivity]|].
    reflexivity.
Qed.

(** The count by which a clade is ranked is its count over the window. *)
Lemma clade_counts_value dataf threshold_weeks cutoff df c n :
  three_sundays_ago dataf threshold_weeks = Ok cutoff ->
  weekly dataf threshold_weeks = Ok df ->
  In (c, n) (clade_counts (prop_dat df)) ->
  n = window_count (window cutoff dataf) c.
Proof.
  intros Hc H Hin. apply weekly_Ok in H. destruct H as [cutoff' [Hc' H]].
  rewrite Hc in Hc'. injection Hc' as <-.
  apply clade_counts_In in Hin. destruct Hin as [_ ->].
  rewrite prop_dat_clade_total. apply weekly_clade_total. exact H.
Qed.

(** The branch for more than nine clades, with the counts added exactly: the
    result is a list of nine distinct clades of the window, ascending in
    [window_count], and no clade left out has a smaller [window_count] than a
    clade of the list. *)
Lemma nine_by_count_of_window (dataf : list Counts.t) (threshold : spec_float)
  (threshold_weeks cutoff : Z) (df : list Weekly.t) :
  three_sundays_ago dataf threshold_weeks = Ok cutoff ->
  weekly dataf threshold_weeks = Ok df ->
  (exists vs, NoDup vs /\ (9 < List.length vs)%nat
              /\ forall v, In v vs ->
                   exists p, In p (prop_dat df) /\ PropDat.clade p = v
                             /\ f64_gt (PropDat.proportion p) threshold = true) ->
  exists l, clades_to_model dataf threshold threshold_weeks = Ok l
            /\ List.length l = 9%nat
            /\ NoDup l
            /\ (forall v, In v l -> exists r, In r (window cutoff dataf) /\ Counts.clade r = v)
            /\ StronglySorted (fun a b => window_count (window cutoff dataf) a
                                          <= window_count (window cutoff dataf) b) l
            /\ (forall v v' r, In v l -> In r (window cutoff dataf) -> Counts.clade r = v' ->
                               ~ In v' l ->
                               window_count (window cutoff dataf) v
                               <= window_count (window cutoff dataf) v').
Proof.
  intros Hc H [vs [ND [Hlen Hvs]]].
  pose proof (more_than_nine threshold _ vs ND Hlen Hvs) as Hbranch.
  exists (nine_by_count (prop_dat df)).
  split; [rewrite (clades_to_model_Ok _ threshold _ _ H), Hbranch; reflexivity|].
  pose proof (clade_counts_NoDup (prop_dat df)) as KND.
  pose proof (fun c n => clade_counts_value _ _ _ _ c n Hc H) as Hval.
  unfold nine_by_count. split; [|split; [|split; [|split]]].
  - rewrite top_length. apply Nat.min_l.
    rewrite <- (length_map fst). apply Nat.ltb_lt in Hbranch.
    apply Nat.lt_le_incl, (Nat.lt_le_trans _ _ _ Hbranch).
    apply NoDup_incl_length; [apply high_prev_variants_NoDup|].
    intros v Hv. apply clade_counts_key_In. apply high_prev_variants_In in Hv.
    destruct Hv as [p [Hp [E _]]]. eauto.
  - apply top_NoDup. exact KND.
  - intros v Hv. apply top_In in Hv. apply clade_counts_key_In in Hv.
    apply (prop_dat_clades _ _ _ _ v Hc H). exact Hv.
  - apply top_sorted. exact Hval.
  - intros v v' r Hv Hr Er Hnot. apply (top_least _ _ Hval 9%nat); [exact Hv| |exact Hnot].
    apply clade_counts_key_In. apply (prop_dat_clades _ _ _ _ v' Hc H). eauto.
Qed.

(** The sums of counts over the output of [data_prep] stay within the number
    of raw lines. *)
Lemma data_prep_sum_le {D : Type} (to_date : D -> option Z) (raw : list (Line.t D)) :
  sum (map Counts.count (data_prep to_date raw)) <= Z.of_nat (List.length raw).
Proof.
  unfold data_prep.
  rewrite (sum_Permutation _ _ (Permutation_map Counts.count (sort_perm _ _))), map_map.
  rewrite (map_ext _ (fun g => sum (map (fun _ => 1) (snd g)))).
  2:{ intros [[[loc d] c] xs]. cbn [agg_len fst snd Counts.count]. symmetry. apply sum_ones. }
  rewrite (sum_group_by key3_eq_dec tidy_key (fun _ => 1)), sum_ones.
  rewrite (Permutation_length (sort_perm _ _)). unfold tidy.
  rewrite length_map. apply Nat2Z.inj_le.
  rewrite <- (length_map (cast to_date) raw). apply filter_length_le.
Qed.

Lemma window_sum_bounds {D : Type} (to_date : D -> option Z) (raw : list (Line.t D))
  (cutoff : Z) :
  0 <= sum (map Counts.count (window cutoff (data_prep to_date raw)))
    <= Z.of_nat (List.length raw).
Proof.
  pose proof (data_prep_sum_le to_date raw) as Hle.
  pose proof (sum_filter_le Counts.count (date_ge cutoff) (data_prep to_date raw)) as H.
  assert (Hpos : forall x, In x (data_prep to_date raw) -> 0 <= Counts.count x).
  { intros r Hr. pose proof (data_prep_count_pos to_date raw r Hr). lia. }
  specialize (H Hpos). unfold window. lia.
Qed.

Lemma window_count_bounds {D : Type} (to_date : D -> option Z) (raw : list (Line.t D))
  (cutoff : Z) (v : option string) :
  0 <= window_count (window cutoff (data_prep to_date raw)) v <= Z.of_nat (List.length raw).
Proof.
  pose proof (window_sum_bounds to_date raw cutoff) as Hw.
  unfold window_count, with_key.
  pose proof (sum_filter_le Counts.count
                (fun x => if opt_string_eq_dec (Counts.clade x) v then true else false)
                (window cutoff (data_prep to_date raw))) as H.
  assert (Hpos : forall x, In x (window cutoff (data_prep to_date raw)) ->
                           0 <= Counts.count x).
  { intros r Hr. apply filter_In in Hr. destruct Hr as [Hr _].
    pose proof (data_prep_count_pos to_date raw r Hr). lia. }
  specialize (H Hpos). lia.
Qed.

(** C3.  On the counts that [data_prep] returns: when more than nine distinct
    clades have a weekly proportion above the threshold, the result is a list
    of exactly nine distinct clades of the window, in ascending order of their
    count summed over the window, and no clade of the window left out has a
    smaller such count than a clade of the list.  The summed counts are at
    most the number of raw lines, so that they are the sums polars computes. *)
Theorem more_than_nine_keeps_nine_smallest {D : Type} (to_date : D -> option Z)
  (raw : list (Line.t D)) (threshold : spec_float) (threshold_weeks cutoff : Z)
  (df : list Weekly.t) :
  three_sundays_ago (data_prep to_date raw) threshold_weeks = Ok cutoff ->
  weekly (data_prep to_date raw) threshold_weeks = Ok df ->
  (exists vs, NoDup vs /\ (9 < List.length vs)%nat
              /\ forall v, In v vs ->
                   exists p, In p (prop_dat df) /\ PropDat.clade p = v
                             /\ f64_gt (PropDat.proportion p) threshold = true) ->
  exists l, clades_to_model (data_prep to_date raw) threshold threshold_weeks = Ok l
            /\ List.length l = 9%nat
            /\ NoDup l
            /\ (forall v, In v l ->
                  exists r, In r (window cutoff (data_prep to_date raw))
                            /\ Counts.clade r = v)
            /\ StronglySorted
                 (fun a b => window_count (window cutoff (data_prep to_date raw)) a
                             <= window_count (window cutoff (data_prep to_date raw)) b) l
            /\ (forall v v' r, In v l ->
                               In r (window cutoff (data_prep to_date raw)) ->
                               Counts.clade r = v' -> ~ In v' l ->
                               window_count (window cutoff (data_prep to_date raw)) v
                               <= window_count (window cutoff (data_prep to_date raw)) v')
            /\ (forall v, 0 <= window_count (window cutoff (data_prep to_date raw)) v
                               <= Z.of_nat (List.length raw)).
Proof.
  intros Hc H Hvs.
  destruct (nine_by_count_of_window _ threshold _ _ _ Hc H Hvs)
    as [l [Hl [Hlen [ND [Hin [Hs Hleast]]]]]].
  exists l. repeat (split; [assumption|]).
  intros v. apply window_count_bounds.
Qed.

(** C6.  Every list that [clades_to_model] returns, through either branch,
    has at most nine entries and no entry twice; and a list is returned for
    every frame that has a date, is sorted by date as [data_prep] returns it,
    and has a cutoff that Python can represent. *)
Theorem clades_to_model_at_most_nine_distinct (dataf : list Counts.t)
  (threshold : spec_float) (threshold_weeks : Z) :
  (forall l, clades_to_model dataf threshold threshold_weeks = Ok l ->
             (List.length l <= 9)%nat /\ NoDup l)
  /\ (forall day,
        max_day dataf = Some day ->
        0 <= threshold_weeks ->
        day <= MAXORDINAL ->
        weekday day + 7 * threshold_weeks < day ->
        StronglySorted (fun a b => opt_date_leb (Counts.date a) (Counts.date b) = true)
                       dataf ->
        exists l, clades_to_model dataf threshold threshold_weeks = Ok l).
Proof.
  split; [apply clades_to_model_result|].
  intros day Hmax Htw Hday Hlt Hs.
  destruct (weekly_total _ _ _ Hmax Htw Hday Hlt Hs) as [df Hdf].
  eexists. apply (clades_to_model_Ok _ threshold _ _ Hdf).
Qed.

Lemma clades_to_model_no_date dataf threshold threshold_weeks :
  max_day dataf = None ->
  clades_to_model dataf threshold threshold_weeks = Raise AttributeError.
Proof.
  intros H. unfold clades_to_model, weekly, three_sundays_ago. rewrite H. reflexivity.
Qed.

Lemma high_prev_variants_nil threshold prop :
  (forall p, In p prop -> f64_gt (PropDat.proportion p) threshold = false) ->
  high_prev_variants threshold prop = [].
Proof.
  intros H. destruct (high_prev_variants threshold prop) as [|v vs] eqn:E; [reflexivity|].
  assert (In v (high_prev_variants threshold prop)) as Hv by (rewrite E; left; reflexivity).
  apply high_prev_variants_In in Hv. destruct Hv as [p [Hp [_ Hgt]]].
  rewrite (H p Hp) in Hgt. discriminate.
Qed.

(** C9, as amended.  For a frame with a date, sorted by date and with a
    cutoff that Python can represent, in which no weekly proportion is above
    the threshold, [clades_to_model] returns the empty list. *)
Theorem no_clade_above_threshold_gives_empty_list (dataf : list Counts.t)
  (threshold : spec_float) (threshold_weeks day : Z) :
  max_day dataf = Some day ->
  0 <= threshold_weeks ->
  day <= MAXORDINAL ->
  weekday day + 7 * threshold_weeks < day ->
  StronglySorted (fun a b => opt_date_leb (Counts.date a) (Counts.date b) = true) dataf ->
  (forall df p, weekly dataf threshold_weeks = Ok df -> In p (prop_dat df) ->
                f64_gt (PropDat.proportion p) threshold = false) ->
  clades_to_model dataf threshold threshold_weeks = Ok [].
Proof.
  intros Hmax Htw Hday Hlt Hs Hnone.
  destruct (weekly_total _ _ _ Hmax Htw Hday Hlt Hs) as [df Hdf].
  rewrite (clades_to_model_Ok _ threshold _ _ Hdf).
  rewrite (high_prev_variants_nil threshold (prop_dat df) (fun p => Hnone df p Hdf)).
  reflexivity.
Qed.

(** C9, the claim as written fails on the empty frame: [max_day] is [None]
    and the call raises instead of returning the empty list. *)
Lemma empty_frame_raises :
  clades_to_model [] default_threshold default_threshold_weeks = Raise AttributeError
  /\ clades_to_model [] default_threshold default_threshold_weeks <> Ok [].
Proof. split; [reflexivity|discriminate]. Qed.

(** C10.  In the branch for more than nine clades the ranking runs over every
    clade of the window, whether or not it was above the threshold; and there
    are frames on which the returned list holds a clade that was above the
    threshold in no week. *)
Theorem fallback_ranks_every_clade_of_window :
  (forall dataf threshold threshold_weeks cutoff df,
      three_sundays_ago dataf threshold_weeks = Ok cutoff ->
      weekly dataf threshold_weeks = Ok df ->
      (9 < List.length (high_prev_variants threshold (prop_dat df)))%nat ->
      clades_to_model dataf threshold threshold_weeks
      = Ok (firstn 9 (map fst (sort (fun a b => snd a <=? snd b)
                                    (clade_counts (prop_dat df)))))
      /\ forall c, In c (map fst (clade_counts (prop_dat df)))
                   <-> exists r, In r (window cutoff dataf) /\ Counts.clade r = c)
  /\ (exists dataf threshold threshold_weeks l v,
        clades_to_model dataf threshold threshold_weeks = Ok l
        /\ In v l
        /\ forall df p, weekly dataf threshold_weeks = Ok df -> In p (prop_dat df) ->
                        PropDat.clade p = v ->
                        f64_gt (PropDat.proportion p) threshold = false).
Proof.
  split.
  - intros dataf threshold threshold_weeks cutoff df Hc H Hlen. split.
    + rewrite (clades_to_model_Ok _ threshold _ _ H).
      apply Nat.ltb_lt in Hlen. rewrite Hlen. reflexivity.
    + intros c. rewrite clade_counts_key_In. apply (prop_dat_clades _ _ _ _ c Hc H).
  - exists eleven_clades, default_threshold, default_threshold_weeks.
    eexists. exists (Some "rare"%string). split; [vm_compute; reflexivity|].
    split; [left; reflexivity|].
    intros df p H Hp Hv. vm_compute in H. injection H as <-. vm_compute in Hp.
    repeat (destruct Hp as [<-|Hp]; [try discriminate Hv; vm_compute; reflexivity|]).
    contradiction.
Qed.

(** ** The window on a sample frame *)

(** C1.  On a frame whose last day is Wednesday 2024-01-10 the cutoff for
    three weeks is 738872, a Monday, whereas the Sunday that starts the week of
    that day, moved back three weeks, is 738871. *)
Theorem cutoff_is_a_monday :
  max_day sample_counts = Some 738895
  /\ three_sundays_ago sample_counts default_threshold_weeks = Ok 738872
  /\ weekday 738872 = 0
  /\ week_start 738895 - 7 * default_threshold_weeks = 738871.
Proof. repeat split. Qed.

(** Whenever the weekly frame is computed, the rows of the last day pass the
    filter and make up a group of the week of that day. *)
Lemma current_week_is_grouped dataf threshold_weeks df day :
  weekly dataf threshold_weeks = Ok df ->
  max_day dataf = Some day ->
  0 <= threshold_weeks ->
  exists r w, In r dataf /\ Counts.date r = Some day
              /\ In w df /\ Weekly.clade w = Counts.clade r
              /\ Weekly.date w = week_start day.
Proof.
  intros H Hmax Htw. apply weekly_Ok in H. destruct H as [cutoff [Hc H]].
  destruct (three_sundays_ago_Ok _ _ _ Hc) as [day' [Hmax' ->]].
  rewrite Hmax in Hmax'. injection Hmax' as <-.
  destruct (max_day_spec _ _ Hmax) as [[r [Hr Hd]] _].
  set (rows := window (monday_on_or_before day - 7 * threshold_weeks) dataf) in *.
  assert (Hin : In r (cell (Counts.clade r) (week_start day) rows)).
  { apply cell_In. split; [|split; [reflexivity|unfold the_date; rewrite Hd; reflexivity]].
    apply filter_In. split; [exact Hr|]. apply date_ge_true. exists day.
    split; [exact Hd|]. unfold monday_on_or_before. pose proof (weekday_range day). lia. }
  exists r, (Weekly.mk (Counts.clade r) (week_start day)
               (sum (map Counts.count (cell (Counts.clade r) (week_start day) rows)))).
  repeat split; try assumption.
  apply (group_by_dynamic_In _ _ _ H). cbn [Weekly.clade Weekly.date Weekly.count].
  split; [|reflexivity]. intros E. rewrite E in Hin. exact Hin.
Qed.

(** C2.  On a frame whose only row is dated Wednesday 2024-01-10, that row of
    the current week is the one weekly group, labelled with the Sunday
    2024-01-07 that starts the current week, and its clade is returned. *)
Theorem current_week_is_counted :
  max_day sample_counts = Some 738895
  /\ week_start 738895 = 738892
  /\ weekly sample_counts default_threshold_weeks
     = Ok [Weekly.mk (Some "XBB"%string) 738892 3]
  /\ clades_to_model sample_counts default_threshold default_threshold_weeks
     = Ok [Some "XBB"%string].
Proof. repeat split. Qed.

(** ** The theorems on the sample frames *)

Example scenario_A : data_prep already_date sample_lines = sample_counts.
Proof. reflexivity. Qed.

Example scenario_B :
  data_prep already_date
    (map (fun r => Line.mk (Line.clade_nextstrain r) (Line.country r)
                           (Some "Puerto Rico"%string) (Line.host r) (Line.date r))
         sample_lines) = [].
Proof. reflexivity. Qed.

Lemma sample_counts_sorted :
  StronglySorted (fun a b => opt_date_leb (Counts.date a) (Counts.date b) = true)
                 sample_counts.
Proof. repeat constructor. Defined.

Lemma eleven_clades_sorted :
  StronglySorted (fun a b => opt_date_leb (Counts.date a) (Counts.date b) = true)
                 eleven_clades.
Proof. unfold eleven_clades. cbn [map]. repeat constructor. Defined.

Lemma data_prep_filter_exhaustive_witness :
  In sample_row (data_prep already_date sample_lines)
  /\ (exists d, Counts.date sample_row = Some d)
  /\ (exists s, Counts.location sample_row = Some s /\ In s states)
  /\ List.length states = 51%nat
  /\ (exists x, In x sample_lines
                /\ line_key (cast already_date x) = counts_key sample_row
                /\ Line.country x = Some "USA"%string
                /\ Line.host x = Some "Homo sapiens"%string)
  /\ Counts.count sample_row
     = Z.of_nat (List.length
         (filter (fun x => col_eq (Line.country x) "USA"
                           && col_eq (Line.host x) "Homo sapiens"
                           && key3_eqb (line_key (cast already_date x))
                                       (counts_key sample_row)) sample_lines)).
Proof.
  split; [left; reflexivity|].
  apply (data_prep_filter_exhaustive already_date sample_lines sample_row).
  left. reflexivity.
Defined.

Lemma data_prep_key_unique_count_exact_witness :
  In sample_row (data_prep already_date sample_lines)
  /\ NoDup (map counts_key (data_prep already_date sample_lines))
  /\ Counts.count sample_row
     = Z.of_nat (List.length
         (filter (fun x => keep (cast already_date x)
                           && key3_eqb (line_key (cast already_date x))
                                       (counts_key sample_row)) sample_lines)).
Proof.
  split; [left; reflexivity|].
  pose proof (data_prep_key_unique_count_exact already_date sample_lines) as [ND Hc].
  split; [exact ND|]. apply Hc. left. reflexivity.
Defined.

Lemma proportion_divisor_positive_witness :
  weekly (data_prep already_date sample_lines) default_threshold_weeks = Ok [sample_week]
  /\ In sample_share (prop_dat [sample_week])
  /\ PropDat.total_count sample_share = week_total [sample_week] (PropDat.date sample_share)
  /\ (exists w, In w [sample_week] /\ Weekly.date w = PropDat.date sample_share)
  /\ 1 <= PropDat.count sample_share <= PropDat.total_count sample_share
  /\ PropDat.proportion sample_share
     = f64_div (to_f64 (PropDat.count sample_share))
               (to_f64 (PropDat.total_count sample_share)).
Proof.
  split; [reflexivity|]. split; [left; reflexivity|].
  apply (proportion_divisor_positive already_date sample_lines default_threshold_weeks
           [sample_week] sample_share).
  - reflexivity.
  - left. reflexivity.
Defined.

Lemma more_than_nine_keeps_nine_smallest_witness :
  exists l, clades_to_model (data_prep already_date eleven_lines) default_threshold
              default_threshold_weeks = Ok l
            /\ List.length l = 9%nat
            /\ NoDup l
            /\ (forall v, In v l ->
                  exists r, In r (window 738872 (data_prep already_date eleven_lines))
                            /\ Counts.clade r = v)
            /\ StronglySorted
                 (fun a b => window_count (window 738872 (data_prep already_date eleven_lines)) a
                             <= window_count
                                  (window 738872 (data_prep already_date eleven_lines)) b) l
            /\ (forall v v' r, In v l ->
                               In r (window 738872 (data_prep already_date eleven_lines)) ->
                               Counts.clade r = v' -> ~ In v' l ->
                               window_count
                                 (window 738872 (data_prep already_date eleven_lines)) v
                               <= window_count
                                    (window 738872 (data_prep already_date eleven_lines)) v')
            /\ (forall v, 0 <= window_count
                                 (window 738872 (data_prep already_date eleven_lines)) v
                               <= Z.of_nat (List.length eleven_lines)).
Proof.
  apply (more_than_nine_keeps_nine_smallest already_date eleven_lines default_threshold
           default_threshold_weeks 738872 eleven_lines_weekly).
  - vm_compute. reflexivity.
  - vm_compute. reflexivity.
  - exists (high_prev_variants default_threshold (prop_dat eleven_lines_weekly)).
    split; [apply high_prev_variants_NoDup|].
    split; [vm_compute; repeat constructor|].
    intros v Hv. apply high_prev_variants_In. exact Hv.
Defined.

Lemma clades_to_model_at_most_nine_distinct_witness :
  exists l, clades_to_model eleven_clades default_threshold default_threshold_weeks = Ok l
            /\ (List.length l <= 9)%nat /\ NoDup l.
Proof.
  pose proof (clades_to_model_at_most_nine_distinct eleven_clades default_threshold
                default_threshold_weeks) as [Hres Hret].
  destruct (Hret 738895) as [l Hl].
  - reflexivity.
  - unfold default_threshold_weeks. lia.
  - unfold MAXORDINAL. lia.
  - reflexivity.
  - exact eleven_clades_sorted.
  - exists l. split; [exact Hl|]. apply Hres. exact Hl.
Defined.

Lemma no_clade_above_threshold_gives_empty_list_witness :
  clades_to_model sample_counts one default_threshold_weeks = Ok [].
Proof.
  apply (no_clade_above_threshold_gives_empty_list sample_counts one
           default_threshold_weeks 738895).
  - reflexivity.
  - unfold default_threshold_weeks. lia.
  - unfold MAXORDINAL. lia.
  - reflexivity.
  - exact sample_counts_sorted.
  - intros df p H Hp. vm_compute in H. injection H as <-. vm_compute in Hp.
    destruct Hp as [<-|[]]. reflexivity.
Defined.

Lemma fallback_ranks_every_clade_of_window_witness :
  clades_to_model eleven_clades default_threshold default_threshold_weeks
  = Ok (firstn 9 (map fst (sort (fun a b => snd a <=? snd b)
                                (clade_counts (prop_dat eleven_weekly)))))
  /\ forall c, In c (map fst (clade_counts (prop_dat eleven_weekly)))
               <-> exists r, In r (window 738872 eleven_clades) /\ Counts.clade r = c.
Proof.
  apply (proj1 fallback_ranks_every_clade_of_window eleven_clades default_threshold
           default_threshold_weeks 738872 eleven_weekly).
  - reflexivity.
  - vm_compute. reflexivity.
  - vm_compute. repeat constructor.
Defined.

(** * Further properties of [data_prep] *)

Lemma kept_filter {D : Type} (to_date : D -> option Z) (dataf : list (Line.t D)) :
  filter keep (map (cast to_date) (filter (fun x => keep (cast to_date x)) dataf))
  = filter keep (map (cast to_date) dataf).
Proof.
  induction dataf as [|x l IH]; [reflexivity|]. cbn [filter map].
  destruct (keep (cast to_date x)) eqn:E; cbn [filter map]; rewrite ?E, IH; reflexivity.
Qed.

Lemma kept_length {D : Type} (to_date : D -> option Z) (dataf : list (Line.t D)) :
  List.length (filter keep (map (cast to_date) dataf))
  = List.length (filter (fun x => keep (cast to_date x)) dataf).
Proof. rewrite filter_map_swap'. apply length_map. Qed.

Lemma data_prep_NoDup {D : Type} (to_date : D -> option Z) (dataf : list (Line.t D)) :
  NoDup (data_prep to_date dataf).
Proof. eapply NoDup_map_inv, data_prep_keys_NoDup. Qed.

(** X2.  Completeness of the aggregation: every raw line that passes the
    filter is counted in an output row, the one with the line's division, cast
    date and clade. *)
Theorem data_prep_complete {D : Type} (to_date : D -> option Z)
  (dataf : list (Line.t D)) (x : Line.t D) :
  In x dataf ->
  keep (cast to_date x) = true ->
  exists r, In r (data_prep to_date dataf)
            /\ counts_key r = line_key (cast to_date x)
            /\ 1 <= Counts.count r.
Proof.
  intros Hx Hk.
  set (k := line_key (cast to_date x)).
  set (kept := filter keep (map (cast to_date) dataf)).
  assert (Hin : In (cast to_date x) (with_key key3_eq_dec line_key k kept)).
  { apply with_key_In. split; [|reflexivity]. apply filter_In. split; [|exact Hk].
    apply in_map. exact Hx. }
  destruct k as [[loc d] c] eqn:Ek.
  exists (Counts.mk loc d c
            (Z.of_nat (List.length (with_key key3_eq_dec line_key (loc, d, c) kept)))).
  split; [|split; [reflexivity|]].
  - apply data_prep_In. exists loc, d, c. split; [reflexivity|].
    intros E. fold kept in E. rewrite E in Hin. exact Hin.
  - cbn [Counts.count].
    destruct (with_key key3_eq_dec line_key (loc, d, c) kept); [contradiction|].
    cbn [List.length]. lia.
Qed.

(** X1.  The output is empty exactly when no raw line passes the filter; in
    particular an empty line list gives an empty frame of counts. *)
Theorem data_prep_empty_iff {D : Type} (to_date : D -> option Z) (dataf : list (Line.t D)) :
  data_prep to_date dataf = [] <-> forall x, In x dataf -> keep (cast to_date x) = false.
Proof.
  split.
  - intros E x Hx. destruct (keep (cast to_date x)) eqn:Hk; [|reflexivity].
    assert (exists r, In r (data_prep to_date dataf)) as [r Hr].
    { set (kept := filter keep (map (cast to_date) dataf)).
      assert (Hin : In (cast to_date x)
                       (with_key key3_eq_dec line_key (line_key (cast to_date x)) kept)).
      { apply with_key_In. split; [|reflexivity]. apply filter_In. split; [|exact Hk].
        apply in_map. exact Hx. }
      destruct (line_key (cast to_date x)) as [[loc d] c].
      eexists. apply data_prep_In. exists loc, d, c. split; [reflexivity|].
      intros E'. fold kept in E'. rewrite E' in Hin. exact Hin. }
    rewrite E in Hr. destruct Hr.
  - intros H. destruct (data_prep to_date dataf) as [|r rs] eqn:E; [reflexivity|].
    assert (In r (data_prep to_date dataf)) as Hr by (rewrite E; left; reflexivity).
    apply data_prep_In in Hr. destruct Hr as [loc [d [c [_ Hne]]]]. exfalso.
    destruct (with_key key3_eq_dec line_key (loc, d, c)
                (filter keep (map (cast to_date) dataf))) as [|y ys] eqn:Ey; [congruence|].
    assert (In y (filter keep (map (cast to_date) dataf))) as Hy.
    { apply (with_key_In key3_eq_dec line_key (loc, d, c)). rewrite Ey. left. reflexivity. }
    apply kept_In in Hy. destruct Hy as [x [Hx [-> Hk]]]. rewrite (H x Hx) in Hk. discriminate.
Qed.

(** X3.  No line is lost or counted twice: the counts of the output add up to
    the number of raw lines that pass the filter. *)
Theorem data_prep_counts_add_up {D : Type} (to_date : D -> option Z)
  (dataf : list (Line.t D)) :
  sum (map Counts.count (data_prep to_date dataf))
  = Z.of_nat (List.length (filter (fun x => keep (cast to_date x)) dataf)).
Proof.
  unfold data_prep.
  rewrite (sum_Permutation _ _ (Permutation_map Counts.count (sort_perm _ _))).
  rewrite map_map.
  rewrite (map_ext _ (fun g => sum (map (fun _ => 1) (snd g)))).
  2:{ intros [[[loc d] c] xs]. cbn [agg_len fst snd Counts.count]. symmetry. apply sum_ones. }
  rewrite (sum_group_by key3_eq_dec tidy_key (fun _ => 1)), sum_ones.
  rewrite (Permutation_length (sort_perm _ _)). unfold tidy.
  rewrite length_map, kept_length. reflexivity.
Qed.

(** X4.  The order of the raw lines does not matter: two line lists with the
    same lines in another order give the same rows of counts, up to the order
    of rows with equal dates. *)
Theorem data_prep_order_irrelevant {D : Type} (to_date : D -> option Z)
  (dataf dataf' : list (Line.t D)) :
  Permutation dataf dataf' ->
  Permutation (data_prep to_date dataf) (data_prep to_date dataf').
Proof.
  intros P. apply NoDup_Permutation; try apply data_prep_NoDup.
  assert (Hk : forall k,
             Permutation (with_key key3_eq_dec line_key k
                            (filter keep (map (cast to_date) dataf)))
                         (with_key key3_eq_dec line_key k
                            (filter keep (map (cast to_date) dataf')))).
  { intros k. unfold with_key. apply filter_Permutation, filter_Permutation.
    apply Permutation_map. exact P. }
  assert (Hdir : forall a b r,
             (forall k, Permutation (with_key key3_eq_dec line_key k
                                       (filter keep (map (cast to_date) a)))
                                    (with_key key3_eq_dec line_key k
                                       (filter keep (map (cast to_date) b)))) ->
             In r (data_prep to_date a) -> In r (data_prep to_date b)).
  { intros a b r Hab Hr. apply data_prep_In in Hr. destruct Hr as [loc [d [c [-> Hne]]]].
    apply data_prep_In. exists loc, d, c. split.
    - rewrite (Permutation_length (Hab (loc, d, c))). reflexivity.
    - intros E. apply Hne. apply Permutation_nil, Permutation_sym.
      rewrite <- E. apply Hab. }
  intros r. split; apply Hdir; [exact Hk|]. intros k. apply Permutation_sym, Hk.
Qed.

(** X5.  Lines that fail the filter are never seen by the aggregation:
    removing them beforehand gives the same rows of counts, up to the order
    of rows. *)
Theorem data_prep_ignores_dropped_lines {D : Type} (to_date : D -> option Z)
  (dataf : list (Line.t D)) :
  Permutation (data_prep to_date (filter (fun x => keep (cast to_date x)) dataf))
              (data_prep to_date dataf).
Proof.
  apply NoDup_Permutation; try apply data_prep_NoDup.
  intros r. rewrite !data_prep_In, kept_filter. reflexivity.
Qed.

(** * Further properties of [clades_to_model] *)

(** ** How a call ends *)

(** The call ends in one of four ways, decided by the last day and the
    arithmetic of the cutoff before any grouping takes place. *)
Lemma clades_to_model_cases dataf threshold threshold_weeks :
  match max_day dataf with
  | None => clades_to_model dataf threshold threshold_weeks = Raise AttributeError
  | Some day =>
      let delta := weekday day + 7 * threshold_weeks in
      if (Z.abs delta <=? 999999999) && ((0 <? day - delta) && (day - delta <=? MAXORDINAL))
      then three_sundays_ago dataf threshold_weeks = Ok (day - delta)
           /\ (clades_to_model dataf threshold threshold_weeks = Raise InvalidOperationError
               \/ exists l, clades_to_model dataf threshold threshold_weeks = Ok l)
      else clades_to_model dataf threshold threshold_weeks = Raise OverflowError
  end.
Proof.
  destruct (max_day dataf) as [day|] eqn:Hmax; [|apply clades_to_model_no_date, Hmax].
  cbv zeta. unfold clades_to_model, weekly, three_sundays_ago, timedelta, date_sub.
  rewrite Hmax.
  destruct (Z.abs (weekday day + 7 * threshold_weeks) <=? 999999999); cbn [andb bind];
    [|reflexivity].
  destruct ((0 <? day - (weekday day + 7 * threshold_weeks))
            && (day - (weekday day + 7 * threshold_weeks) <=? MAXORDINAL));
    cbn [bind]; [|reflexivity].
  split; [reflexivity|].
  destruct (group_by_dynamic _) as [df|e] eqn:E; cbn [bind]; [right; eauto|].
  left. unfold group_by_dynamic in E. destruct (_ && _); [discriminate|]. congruence.
Qed.

(** X6.  [None.weekday()] is the only source of an AttributeError: the call
    raises it exactly when no row of the frame has a date, which includes the
    empty frame. *)
Theorem attribute_error_iff_no_date (dataf : list Counts.t) (threshold : spec_float)
  (threshold_weeks : Z) :
  clades_to_model dataf threshold threshold_weeks = Raise AttributeError
  <-> forall r, In r dataf -> Counts.date r = None.
Proof.
  rewrite <- max_day_None.
  pose proof (clades_to_model_cases dataf threshold threshold_weeks) as H.
  destruct (max_day dataf) as [day|]; [|tauto].
  split; [|discriminate]. intros E. cbv zeta in H.
  destruct (_ && _).
  - destruct H as [_ [H|[l H]]]; congruence.
  - congruence.
Qed.

(** X7.  The call raises OverflowError exactly when the frame has a last day
    and the cutoff cannot be computed: the number of days to go back exceeds
    what a [timedelta] holds, or the cutoff falls outside the dates of years 1
    to 9999. *)
Theorem overflow_error_iff (dataf : list Counts.t) (threshold : spec_float)
  (threshold_weeks : Z) :
  clades_to_model dataf threshold threshold_weeks = Raise OverflowError
  <-> exists day, max_day dataf = Some day
                  /\ (999999999 < Z.abs (weekday day + 7 * threshold_weeks)
                      \/ day - (weekday day + 7 * threshold_weeks) <= 0
                      \/ MAXORDINAL < day - (weekday day + 7 * threshold_weeks)).
Proof.
  pose proof (clades_to_model_cases dataf threshold threshold_weeks) as H.
  destruct (max_day dataf) as [day|].
  - cbv zeta in H.
    destruct ((Z.abs (weekday day + 7 * threshold_weeks) <=? 999999999)
              && ((0 <? day - (weekday day + 7 * threshold_weeks))
                  && (day - (weekday day + 7 * threshold_weeks) <=? MAXORDINAL))) eqn:E.
    + apply andb_true_iff in E. destruct E as [E1 E2]. apply andb_true_iff in E2.
      destruct E2 as [E2 E3]. apply Z.leb_le in E1, E3. apply Z.ltb_lt in E2.
      split.
      * intros R. destruct H as [_ [H|[l H]]]; congruence.
      * intros [day' [Hd Hor]]. injection Hd as <-. exfalso. lia.
    + split; [|intros _; exact H]. intros _. exists day. split; [reflexivity|].
      apply andb_false_iff in E. destruct E as [E|E].
      * apply Z.leb_gt in E. lia.
      * apply andb_false_iff in E. destruct E as [E|E];
          [apply Z.ltb_ge in E|apply Z.leb_gt in E]; lia.
  - split; [congruence|]. intros [day [Hd _]]. discriminate.
Qed.

(** X8.  Where a cutoff is computed it is a date of years 1 to 9999 that falls
    on weekday 0, and it lies at least [7 * threshold_weeks] and at most
    [7 * threshold_weeks + 6] days before the last day of the frame. *)
Theorem three_sundays_ago_bounds (dataf : list Counts.t) (threshold_weeks cutoff day : Z) :
  three_sundays_ago dataf threshold_weeks = Ok cutoff ->
  max_day dataf = Some day ->
  weekday cutoff = 0
  /\ day - 7 * threshold_weeks - 6 <= cutoff <= day - 7 * threshold_weeks
  /\ 0 < cutoff <= MAXORDINAL.
Proof.
  intros H Hmax. split; [apply (three_sundays_ago_is_monday _ _ _ H)|].
  unfold three_sundays_ago, timedelta, date_sub in H. rewrite Hmax in H.
  destruct (Z.abs _ <=? _); cbn [bind] in H; [|discriminate].
  destruct (_ && _) eqn:E; [|discriminate].
  assert (Hc : day - (weekday day + 7 * threshold_weeks) = cutoff) by congruence.
  apply andb_true_iff in E. destruct E as [E1 E2]. apply Z.ltb_lt in E1. apply Z.leb_le in E2.
  pose proof (weekday_range day). lia.
Qed.

(** X9.  The two functions compose: on the counts that [data_prep] returns
    the dynamic grouping never refuses its index column, so the call returns
    a list unless nothing passed the filter (AttributeError) or the cutoff is
    not a date (OverflowError). *)
Theorem pipeline_grouping_never_fails {D : Type} (to_date : D -> option Z)
  (raw : list (Line.t D)) (threshold : spec_float) (threshold_weeks : Z) :
  (exists l, clades_to_model (data_prep to_date raw) threshold threshold_weeks = Ok l)
  \/ clades_to_model (data_prep to_date raw) threshold threshold_weeks = Raise AttributeError
  \/ clades_to_model (data_prep to_date raw) threshold threshold_weeks = Raise OverflowError.
Proof.
  pose proof (clades_to_model_cases (data_prep to_date raw) threshold threshold_weeks) as H.
  destruct (max_day (data_prep to_date raw)) as [day|]; [|auto].
  cbv zeta in H. destruct (_ && _); [|auto].
  destruct H as [Hc _]. left.
  destruct (group_by_dynamic_total (window (day - (weekday day + 7 * threshold_weeks))
                                           (data_prep to_date raw))) as [df Hdf].
  - intros r Hr. apply filter_In in Hr. destruct Hr as [_ Hr].
    apply date_ge_true in Hr. destruct Hr as [d [-> _]]. discriminate.
  - apply StronglySorted_filter, data_prep_sorted.
  - eexists. apply (clades_to_model_Ok _ threshold _ df).
    unfold weekly. rewrite Hc. exact Hdf.
Qed.

(** X10.  On the counts that [data_prep] returns, the AttributeError of an
    empty frame arises exactly when no raw line passes the filter. *)
Theorem pipeline_attribute_error_iff {D : Type} (to_date : D -> option Z)
  (raw : list (Line.t D)) (threshold : spec_float) (threshold_weeks : Z) :
  clades_to_model (data_prep to_date raw) threshold threshold_weeks = Raise AttributeError
  <-> forall x, In x raw -> keep (cast to_date x) = false.
Proof.
  pose proof (clades_to_model_cases (data_prep to_date raw) threshold threshold_weeks) as H.
  destruct (max_day (data_prep to_date raw)) as [day|] eqn:Hmax.
  - destruct (max_day_spec _ _ Hmax) as [[r [Hr Hd]] _].
    split.
    + intros E. cbv zeta in H. destruct (_ && _); [|congruence].
      destruct H as [_ [H|[l H]]]; congruence.
    + intros Hnone. exfalso. apply data_prep_In in Hr.
      destruct Hr as [loc [d [c [_ Hne]]]].
      destruct (with_key key3_eq_dec line_key (loc, d, c)
                  (filter keep (map (cast to_date) raw))) as [|y ys] eqn:Ey; [congruence|].
      assert (In y (filter keep (map (cast to_date) raw))) as Hy.
      { apply (with_key_In key3_eq_dec line_key (loc, d, c)). rewrite Ey. left. reflexivity. }
      apply kept_In in Hy. destruct Hy as [x [Hx [-> Hk]]].
      rewrite (Hnone x Hx) in Hk. discriminate.
  - split; [|intros _; exact H]. intros _ x Hx.
    destruct (keep (cast to_date x)) eqn:Hk; [|reflexivity]. exfalso.
    set (kept := filter keep (map (cast to_date) raw)).
    assert (Hin : In (cast to_date x)
                     (with_key key3_eq_dec line_key (line_key (cast to_date x)) kept)).
    { apply with_key_In. split; [|reflexivity]. apply filter_In. split; [|exact Hk].
      apply in_map. exact Hx. }
    assert (Hd : exists d, Line.date (cast to_date x) = Some d).
    { apply keep_true in Hk. tauto. }
    destruct Hd as [d0 Hd0].
    destruct (line_key (cast to_date x)) as [[loc d] c] eqn:Ek.
    assert (In (Counts.mk loc d c
                  (Z.of_nat (List.length (with_key key3_eq_dec line_key (loc, d, c) kept))))
               (data_prep to_date raw)) as Hr.
    { apply data_prep_In. exists loc, d, c. split; [reflexivity|].
      intros E'. fold kept in E'. rewrite E' in Hin. exact Hin. }
    rewrite max_day_None in Hmax. specialize (Hmax _ Hr). cbn [Counts.date] in Hmax.
    unfold line_key in Ek. injection Ek as _ E2 _.
    cbn [cast Line.date] in Hd0. congruence.
Qed.

(** ** What the result is made of *)

Lemma window_In cutoff dataf r :
  In r (window cutoff dataf) <->
  In r dataf /\ exists d, Counts.date r = Some d /\ cutoff <= d.
Proof. unfold window. rewrite filter_In, date_ge_true. reflexivity. Qed.

(** X11.  The call never invents a clade and never looks before the cutoff:
    every clade it returns, through either branch, is the clade of a row of
    the frame dated on or after the cutoff. *)
Theorem returned_clades_come_from_window (dataf : list Counts.t) (threshold : spec_float)
  (threshold_weeks cutoff : Z) (l : list (option string)) (v : option string) :
  three_sundays_ago dataf threshold_weeks = Ok cutoff ->
  clades_to_model dataf threshold threshold_weeks = Ok l ->
  In v l ->
  exists r d, In r dataf /\ Counts.clade r = v /\ Counts.date r = Some d /\ cutoff <= d.
Proof.
  intros Hc H Hv. destruct (clades_to_model_inv _ _ _ _ H) as [df Hdf].
  rewrite (clades_to_model_Ok _ threshold _ _ Hdf) in H. injection H as <-.
  assert (Hp : exists p, In p (prop_dat df) /\ PropDat.clade p = v).
  { destruct (9 <? _)%nat.
    - unfold nine_by_count in Hv. apply top_In in Hv. apply clade_counts_key_In, Hv.
    - apply high_prev_variants_In in Hv. destruct Hv as [p [Hp [E _]]]. eauto. }
  apply (prop_dat_clades _ _ _ _ v Hc Hdf) in Hp. destruct Hp as [r [Hr E]].
  apply window_In in Hr. destruct Hr as [Hr [d [Hd Hle]]]. eauto 8.
Qed.

(** X12.  When at most nine distinct clades have a weekly proportion above the
    threshold, the result holds exactly these clades, each once. *)
Theorem at_most_nine_returns_those_above (dataf : list Counts.t) (threshold : spec_float)
  (threshold_weeks : Z) (df : list Weekly.t) :
  weekly dataf threshold_weeks = Ok df ->
  (forall vs, NoDup vs ->
              (forall v, In v vs ->
                         exists p, In p (prop_dat df) /\ PropDat.clade p = v
                                   /\ f64_gt (PropDat.proportion p) threshold = true) ->
              (List.length vs <= 9)%nat) ->
  exists l, clades_to_model dataf threshold threshold_weeks = Ok l
            /\ NoDup l
            /\ forall v, In v l <->
                          exists p, In p (prop_dat df) /\ PropDat.clade p = v
                                    /\ f64_gt (PropDat.proportion p) threshold = true.
Proof.
  intros Hdf Hfew. exists (high_prev_variants threshold (prop_dat df)).
  split; [|split; [apply high_prev_variants_NoDup|apply high_prev_variants_In]].
  rewrite (clades_to_model_Ok _ threshold _ _ Hdf).
  replace (9 <? _)%nat with false; [reflexivity|].
  symmetry. apply Nat.ltb_ge. apply Hfew; [apply high_prev_variants_NoDup|].
  intros v Hv. apply high_prev_variants_In, Hv.
Qed.

(** ** Rows before the cutoff *)

Lemma max_day_window dataf cutoff day :
  max_day dataf = Some day -> cutoff <= day ->
  max_day (window cutoff dataf) = Some day.
Proof.
  intros Hmax Hle. destruct (max_day_spec _ _ Hmax) as [[r [Hr Hd]] Hall].
  assert (Hw : In r (window cutoff dataf)) by (apply window_In; eauto).
  destruct (max_day (window cutoff dataf)) as [d'|] eqn:E.
  - destruct (max_day_spec _ _ E) as [[r' [Hr' Hd']] Hall'].
    apply window_In in Hr'. destruct Hr' as [Hr' _].
    pose proof (Hall r' d' Hr' Hd'). pose proof (Hall' r day Hw Hd).
    f_equal. lia.
  - rewrite max_day_None in E. rewrite (E r Hw) in Hd. discriminate.
Qed.

Lemma window_idempotent cutoff dataf :
  window cutoff (window cutoff dataf) = window cutoff dataf.
Proof.
  unfold window. induction dataf as [|r l IH]; [reflexivity|]. cbn [filter].
  destruct (date_ge cutoff r) eqn:E; [|exact IH]. cbn [filter]. rewrite E, IH. reflexivity.
Qed.

(** X13.  With a non-negative number of weeks, the rows dated before the
    cutoff have no influence: on the window alone the cutoff is the same, the
    weekly frame has the same rows, and the same clades are above any
    threshold; where the grouping is refused on the frame, it is refused on
    the window. *)
Theorem rows_before_cutoff_are_irrelevant (dataf : list Counts.t)
  (threshold_weeks cutoff : Z) :
  three_sundays_ago dataf threshold_weeks = Ok cutoff ->
  0 <= threshold_weeks ->
  three_sundays_ago (window cutoff dataf) threshold_weeks = Ok cutoff
  /\ match weekly dataf threshold_weeks, weekly (window cutoff dataf) threshold_weeks with
     | Ok df, Ok df' =>
         Permutation df df'
         /\ forall threshold v,
              In v (high_prev_variants threshold (prop_dat df))
              <-> In v (high_prev_variants threshold (prop_dat df'))
     | Raise e, Raise e' => e = e'
     | _, _ => False
     end.
Proof.
  intros Hc Htw. destruct (three_sundays_ago_Ok _ _ _ Hc) as [day [Hmax E]].
  assert (Hle : cutoff <= day).
  { subst cutoff. unfold monday_on_or_before. pose proof (weekday_range day). lia. }
  assert (Hc' : three_sundays_ago (window cutoff dataf) threshold_weeks = Ok cutoff).
  { unfold three_sundays_ago in *. rewrite (max_day_window _ _ _ Hmax Hle).
    rewrite Hmax in Hc. exact Hc. }
  split; [exact Hc'|].
  unfold weekly. rewrite Hc, Hc'. cbn [bind]. rewrite window_idempotent.
  destruct (group_by_dynamic (window cutoff dataf)) as [df|e]; [|reflexivity].
  split; [apply Permutation_refl|]. intros threshold v. reflexivity.
Qed.

(** ** The weeks of the weekly frame *)

Lemma week_start_mono a b : a <= b -> week_start a <= week_start b.
Proof.
  intros H. rewrite !week_start_div.
  apply Z.mul_le_mono_nonneg_l; [lia|]. apply Z.div_le_mono; lia.
Qed.

(** X14.  Every row of the weekly frame is labelled with a Sunday.  The label
    is the start of the week of a row of its clade dated on or after the
    cutoff, and it lies between the day before the cutoff and the last day of
    the frame, so that the frame spans at most [threshold_weeks + 2] weeks. *)
Theorem weekly_labels_are_sundays_in_window (dataf : list Counts.t)
  (threshold_weeks cutoff day : Z) (df : list Weekly.t) (w : Weekly.t) :
  three_sundays_ago dataf threshold_weeks = Ok cutoff ->
  max_day dataf = Some day ->
  weekly dataf threshold_weeks = Ok df ->
  In w df ->
  weekday (Weekly.date w) = 6
  /\ cutoff - 1 <= Weekly.date w <= day
  /\ Weekly.date w <= cutoff - 1 + 7 * (threshold_weeks + 1)
  /\ exists r d, In r dataf /\ Counts.clade r = Weekly.clade w /\ Counts.date r = Some d
                 /\ cutoff <= d /\ Weekly.date w <= d < Weekly.date w + 7.
Proof.
  intros Hc Hmax Hdf Hw. apply weekly_Ok in Hdf. destruct Hdf as [cutoff' [Hc' Hdf]].
  rewrite Hc in Hc'. injection Hc' as <-.
  apply (group_by_dynamic_In _ _ w Hdf) in Hw. destruct Hw as [Hne _].
  destruct (cell (Weekly.clade w) (Weekly.date w) (window cutoff dataf)) as [|r rs] eqn:E;
    [congruence|]. clear Hne.
  assert (In r (cell (Weekly.clade w) (Weekly.date w) (window cutoff dataf))) as Hr
    by (rewrite E; left; reflexivity).
  apply cell_In in Hr. destruct Hr as [Hr [Hcl Hwk]].
  apply window_In in Hr. destruct Hr as [Hr [d [Hd Hle]]].
  unfold the_date in Hwk. rewrite Hd in Hwk.
  destruct (max_day_spec _ _ Hmax) as [_ Hall]. pose proof (Hall r d Hr Hd) as Hday.
  pose proof (week_start_bounds d) as Hb.
  pose proof (week_start_mono _ _ Hle) as Hm.
  pose proof (three_sundays_ago_is_monday _ _ _ Hc) as Hmon.
  assert (Hcs : week_start cutoff = cutoff - 1).
  { unfold week_start. rewrite Hmon. reflexivity. }
  destruct (three_sundays_ago_Ok _ _ _ Hc) as [day' [Hmax' Ec]].
  rewrite Hmax in Hmax'. injection Hmax' as <-.
  unfold monday_on_or_before in Ec. pose proof (weekday_range day) as Hwd.
  rewrite <- Hwk. split; [apply week_start_sunday|].
  split; [lia|]. split; [lia|]. exists r, d. repeat split; auto; lia.
Qed.

Lemma windows_clade_of c rs w : In w (windows (c, rs)) -> Weekly.clade w = c.
Proof.
  rewrite windows_spec, in_map_iff. intros [g [<- _]]. reflexivity.
Qed.

Lemma NoDup_map_injective {A B : Type} (f : A -> B) (l : list A) :
  (forall a b, f a = f b -> a = b) -> NoDup l -> NoDup (map f l).
Proof.
  intros Hf. induction 1 as [|x l Hx ND IH]; simpl; constructor; [|exact IH].
  intros Hin. apply in_map_iff in Hin. destruct Hin as [y [E Hy]].
  apply Hf in E. subst y. contradiction.
Qed.

Lemma windows_keys_NoDup c rs : NoDup (map weekly_key (windows (c, rs))).
Proof.
  rewrite windows_spec, map_map. unfold weekly_key. cbn [Weekly.clade Weekly.date].
  rewrite <- (map_map fst (fun week => (c, week))).
  apply NoDup_map_injective; [|apply group_by_NoDup].
  intros a b E. injection E as E. exact E.
Qed.

Lemma flat_windows_keys_NoDup gs :
  NoDup (map fst gs) -> NoDup (map weekly_key (flat_map windows gs)).
Proof.
  induction gs as [|[c rs] rest IH]; intros ND; [constructor|].
  cbn [flat_map]. rewrite map_app. inversion ND as [|? ? Hnotin ND']; subst.
  apply NoDup_app; [apply windows_keys_NoDup|apply IH, ND'|].
  intros k Hk Hk'. apply in_map_iff in Hk. destruct Hk as [w [<- Hw]].
  apply in_map_iff in Hk'. destruct Hk' as [w' [Ek Hw']].
  apply in_flat_map in Hw'. destruct Hw' as [[c' rs'] [Hg Hw']].
  apply windows_clade_of in Hw, Hw'. unfold weekly_key in Ek. injection Ek as Ec _.
  apply Hnotin. apply (in_map fst) in Hg. cbn [fst] in Hg. congruence.
Qed.

(** X15.  The weekly frame has one row per clade and week: no two of its rows
    share both. *)
Theorem weekly_keys_unique (dataf : list Counts.t) (threshold_weeks : Z)
  (df : list Weekly.t) :
  weekly dataf threshold_weeks = Ok df ->
  NoDup (map weekly_key df).
Proof.
  intros H. apply weekly_Ok in H. destruct H as [cutoff [_ H]].
  apply group_by_dynamic_Ok in H. subst df.
  apply flat_windows_keys_NoDup, group_by_NoDup.
Qed.

Lemma flat_windows_total gs :
  sum (map Weekly.count (flat_map windows gs))
  = sum (map (fun g => sum (map Counts.count (snd g))) gs).
Proof.
  induction gs as [|[c rs] rest IH]; [reflexivity|].
  cbn [flat_map map]. rewrite map_app, sum_app, windows_sum, IH. reflexivity.
Qed.

(** X16.  On the counts that [data_prep] returns, re-bucketing by week
    neither loses nor repeats a count: the counts of the weekly frame, the
    weekly totals, and the counts of [prop_dat] each add up to the sum of the
    counts of the rows on or after the cutoff, which is at most the number of
    raw lines. *)
Theorem weekly_counts_add_up {D : Type} (to_date : D -> option Z) (raw : list (Line.t D))
  (threshold_weeks cutoff : Z) (df : list Weekly.t) :
  three_sundays_ago (data_prep to_date raw) threshold_weeks = Ok cutoff ->
  weekly (data_prep to_date raw) threshold_weeks = Ok df ->
  sum (map Weekly.count df)
  = sum (map Counts.count (window cutoff (data_prep to_date raw)))
  /\ sum (map Total.total_count (total_counts df))
     = sum (map Counts.count (window cutoff (data_prep to_date raw)))
  /\ sum (map PropDat.count (prop_dat df))
     = sum (map Counts.count (window cutoff (data_prep to_date raw)))
  /\ 0 <= sum (map Counts.count (window cutoff (data_prep to_date raw)))
       <= Z.of_nat (List.length raw).
Proof.
  intros Hc H. apply weekly_Ok in H. destruct H as [cutoff' [Hc' H]].
  rewrite Hc in Hc'. injection Hc' as <-.
  assert (E : sum (map Weekly.count df)
              = sum (map Counts.count (window cutoff (data_prep to_date raw)))).
  { apply group_by_dynamic_Ok in H. subst df. rewrite flat_windows_total.
    apply (sum_group_by opt_string_eq_dec Counts.clade Counts.count). }
  split; [exact E|]. split; [|split; [|apply window_sum_bounds]].
  - unfold total_counts. rewrite map_map. cbn [Total.total_count]. rewrite <- E.
    apply (sum_group_by Z.eq_dec Weekly.date Weekly.count).
  - rewrite prop_dat_map, map_map. cbn [PropDat.count]. exact E.
Qed.

(** ** The location column *)

Lemma group_insert_map {A B K : Type} (K_eq_dec : forall a b : K, {a = b} + {a <> b})
  (key : B -> K) (g : A -> B) (x : A) (gs : list (K * list A)) :
  group_insert K_eq_dec key (g x) (map (fun gr => (fst gr, map g (snd gr))) gs)
  = map (fun gr => (fst gr, map g (snd gr)))
        (group_insert K_eq_dec (fun a => key (g a)) x gs).
Proof.
  induction gs as [|[k m] rest IH]; [reflexivity|]. cbn [map group_insert fst snd].
  destruct (K_eq_dec (key (g x)) k); cbn [map fst snd].
  - rewrite map_app. reflexivity.
  - rewrite IH. reflexivity.
Qed.

Lemma group_by_map {A B K : Type} (K_eq_dec : forall a b : K, {a = b} + {a <> b})
  (key : B -> K) (g : A -> B) (l : list A) :
  group_by K_eq_dec key (map g l)
  = map (fun gr => (fst gr, map g (snd gr))) (group_by K_eq_dec (fun a => key (g a)) l).
Proof.
  induction l as [|x l IH] using rev_ind; [reflexivity|].
  rewrite map_app. cbn [map]. rewrite !group_by_snoc, IH. apply group_insert_map.
Qed.

Lemma max_day_set_location f dataf :
  max_day (map (set_location f) dataf) = max_day dataf.
Proof.
  induction dataf as [|r l IH]; [reflexivity|]. cbn [map max_day fold_right].
  change (fold_right (fun r acc => opt_max (Counts.date r) acc) None
            (map (set_location f) l)) with (max_day (map (set_location f) l)).
  rewrite IH. reflexivity.
Qed.

Lemma window_set_location f cutoff dataf :
  window cutoff (map (set_location f) dataf) = map (set_location f) (window cutoff dataf).
Proof. unfold window. rewrite filter_map_swap'. reflexivity. Qed.

Lemma windows_set_location f c rs :
  windows (c, map (set_location f) rs) = windows (c, rs).
Proof.
  rewrite !windows_spec, group_by_map, map_map. apply map_ext.
  intros [week xs]. cbn [fst snd]. rewrite map_map. reflexivity.
Qed.

Lemma forallb_set_location f rows :
  forallb (fun r => is_not_null (Counts.date r)) (map (set_location f) rows)
  = forallb (fun r => is_not_null (Counts.date r)) rows.
Proof.
  induction rows as [|r l IH]; [reflexivity|]. cbn [map forallb]. rewrite IH. reflexivity.
Qed.

Lemma ascending_set_location f (groups : list (option string * list Counts.t)) :
  forallb (fun g => ascending (map the_date (snd g)))
          (map (fun gr => (fst gr, map (set_location f) (snd gr))) groups)
  = forallb (fun g => ascending (map the_date (snd g))) groups.
Proof.
  induction groups as [|g gs IH]; [reflexivity|]. cbn [map forallb snd].
  rewrite IH, map_map. reflexivity.
Qed.

Lemma flat_windows_set_location f (groups : list (option string * list Counts.t)) :
  flat_map windows (map (fun gr => (fst gr, map (set_location f) (snd gr))) groups)
  = flat_map windows groups.
Proof.
  induction groups as [|[c rs] gs IH]; [reflexivity|]. cbn [map flat_map fst snd].
  rewrite IH, windows_set_location. reflexivity.
Qed.

Lemma group_by_dynamic_set_location f rows :
  group_by_dynamic (map (set_location f) rows) = group_by_dynamic rows.
Proof.
  unfold group_by_dynamic. rewrite group_by_map.
  change (fun a => Counts.clade (set_location f a)) with Counts.clade.
  rewrite forallb_set_location, ascending_set_location, flat_windows_set_location.
  reflexivity.
Qed.

(** X17.  The location column plays no part: whatever the locations of the
    rows are replaced with, the cutoff is the same, the weekly frame has the
    same rows, the same clades are above any threshold, and where the grouping
    is refused on one frame it is refused on the other. *)
Theorem location_is_irrelevant (f : option string -> option string)
  (dataf : list Counts.t) (threshold_weeks : Z) :
  three_sundays_ago (map (set_location f) dataf) threshold_weeks
  = three_sundays_ago dataf threshold_weeks
  /\ match weekly dataf threshold_weeks,
           weekly (map (set_location f) dataf) threshold_weeks with
     | Ok df, Ok df' =>
         Permutation df df'
         /\ forall threshold v,
              In v (high_prev_variants threshold (prop_dat df))
              <-> In v (high_prev_variants threshold (prop_dat df'))
     | Raise e, Raise e' => e = e'
     | _, _ => False
     end.
Proof.
  assert (Hc : three_sundays_ago (map (set_location f) dataf) threshold_weeks
               = three_sundays_ago dataf threshold_weeks).
  { unfold three_sundays_ago. rewrite max_day_set_location. reflexivity. }
  split; [exact Hc|]. unfold weekly. rewrite Hc.
  destruct (three_sundays_ago dataf threshold_weeks) as [cutoff|e]; [|reflexivity].
  cbn [bind]. rewrite window_set_location, group_by_dynamic_set_location.
  destruct (group_by_dynamic (window cutoff dataf)) as [df|e]; [|reflexivity].
  split; [apply Permutation_refl|]. intros threshold v. reflexivity.
Qed.

(** ** The ends of the window *)

(** X18.  With a non-negative number of weeks the last day is never cut off:
    every row dated on the last day passes the filter and is summed into the
    weekly row of its clade labelled with the Sunday on or before that day. *)
Theorem last_day_rows_are_grouped (dataf : list Counts.t) (threshold_weeks cutoff day : Z)
  (df : list Weekly.t) (r : Counts.t) :
  three_sundays_ago dataf threshold_weeks = Ok cutoff ->
  weekly dataf threshold_weeks = Ok df ->
  0 <= threshold_weeks ->
  max_day dataf = Some day ->
  In r dataf ->
  Counts.date r = Some day ->
  In r (window cutoff dataf)
  /\ exists w, In w df /\ Weekly.clade w = Counts.clade r /\ Weekly.date w = week_start day
               /\ In r (cell (Weekly.clade w) (Weekly.date w) (window cutoff dataf))
               /\ Weekly.count w
                  = sum (map Counts.count
                           (cell (Weekly.clade w) (Weekly.date w) (window cutoff dataf))).
Proof.
  intros Hc Hdf Htw Hmax Hr Hd. apply weekly_Ok in Hdf. destruct Hdf as [cutoff' [Hc' Hdf]].
  rewrite Hc in Hc'. injection Hc' as <-.
  destruct (three_sundays_ago_Ok _ _ _ Hc) as [day' [Hmax' Ec]].
  rewrite Hmax in Hmax'. injection Hmax' as <-.
  assert (Hw : In r (window cutoff dataf)).
  { apply window_In. split; [exact Hr|]. exists day. split; [exact Hd|].
    subst cutoff. unfold monday_on_or_before. pose proof (weekday_range day). lia. }
  split; [exact Hw|].
  assert (Hin : In r (cell (Counts.clade r) (week_start day) (window cutoff dataf))).
  { apply cell_In. split; [exact Hw|]. split; [reflexivity|].
    unfold the_date. rewrite Hd. reflexivity. }
  exists (Weekly.mk (Counts.clade r) (week_start day)
            (sum (map Counts.count
                      (cell (Counts.clade r) (week_start day) (window cutoff dataf))))).
  cbn [Weekly.clade Weekly.date Weekly.count]. repeat split; try assumption.
  apply (group_by_dynamic_In _ _ _ Hdf). cbn [Weekly.clade Weekly.date Weekly.count].
  split; [|reflexivity]. intros E. rewrite E in Hin. exact Hin.
Qed.

Lemma window_nil cutoff dataf day :
  max_day dataf = Some day -> day < cutoff -> window cutoff dataf = [].
Proof.
  intros Hmax Hlt. destruct (max_day_spec _ _ Hmax) as [_ Hall].
  destruct (window cutoff dataf) as [|r rs] eqn:E; [reflexivity|].
  assert (In r (window cutoff dataf)) as Hr by (rewrite E; left; reflexivity).
  apply window_In in Hr. destruct Hr as [Hr [d [Hd Hle]]].
  pose proof (Hall r d Hr Hd). lia.
Qed.

(** X19.  A negative number of weeks can place the cutoff after the last day;
    the window is then empty and the call returns the empty list without an
    error. *)
Theorem cutoff_after_last_day_gives_empty_list (dataf : list Counts.t)
  (threshold : spec_float) (threshold_weeks cutoff day : Z) :
  three_sundays_ago dataf threshold_weeks = Ok cutoff ->
  max_day dataf = Some day ->
  day < cutoff ->
  window cutoff dataf = []
  /\ clades_to_model dataf threshold threshold_weeks = Ok [].
Proof.
  intros Hc Hmax Hlt. pose proof (window_nil _ _ _ Hmax Hlt) as E.
  split; [exact E|]. unfold clades_to_model, weekly. rewrite Hc. cbn [bind].
  rewrite E. reflexivity.
Qed.

(** X20.  Every count of the output is at least one and at most the number of
    raw lines. *)
Theorem data_prep_count_bounds {D : Type} (to_date : D -> option Z)
  (dataf : list (Line.t D)) (r : Counts.t) :
  In r (data_prep to_date dataf) ->
  1 <= Counts.count r <= Z.of_nat (List.length dataf).
Proof.
  intros Hr. split; [apply (data_prep_count_pos to_date dataf r Hr)|].
  apply data_prep_In in Hr. destruct Hr as [loc [d [c [-> _]]]]. cbn [Counts.count].
  rewrite group_size_raw. apply Nat2Z.inj_le, filter_length_le.
Qed.

(** ** The further properties on the sample frames *)

Lemma data_prep_empty_iff_witness : data_prep already_date dog_lines = [].
Proof.
  apply (proj2 (data_prep_empty_iff already_date dog_lines)).
  intros x [<-|[<-|[]]]; reflexivity.
Defined.

Lemma data_prep_complete_witness :
  exists r, In r (data_prep already_date sample_lines)
            /\ counts_key r = line_key (cast already_date (sample_line "Homo sapiens"))
            /\ 1 <= Counts.count r.
Proof.
  apply (data_prep_complete already_date sample_lines (sample_line "Homo sapiens")).
  - left. reflexivity.
  - reflexivity.
Defined.

Lemma data_prep_order_irrelevant_witness :
  Permutation (data_prep already_date sample_lines)
              (data_prep already_date (rev sample_lines)).
Proof.
  apply (data_prep_order_irrelevant already_date sample_lines (rev sample_lines)).
  apply Permutation_rev.
Defined.

Lemma data_prep_count_bounds_witness :
  1 <= Counts.count sample_row <= Z.of_nat (List.length sample_lines).
Proof.
  apply (data_prep_count_bounds already_date sample_lines sample_row).
  left. reflexivity.
Defined.

Lemma attribute_error_iff_no_date_witness :
  clades_to_model undated_counts default_threshold default_threshold_weeks
  = Raise AttributeError.
Proof.
  apply (proj2 (attribute_error_iff_no_date undated_counts default_threshold
                  default_threshold_weeks)).
  intros r [<-|[]]. reflexivity.
Defined.

Lemma overflow_error_iff_witness :
  clades_to_model sample_counts default_threshold 200000000 = Raise OverflowError.
Proof.
  apply (proj2 (overflow_error_iff sample_counts default_threshold 200000000)).
  exists 738895. split; [reflexivity|]. left. reflexivity.
Defined.

Lemma three_sundays_ago_bounds_witness :
  weekday 738872 = 0
  /\ 738895 - 7 * default_threshold_weeks - 6 <= 738872 <= 738895 - 7 * default_threshold_weeks
  /\ 0 < 738872 <= MAXORDINAL.
Proof.
  apply (three_sundays_ago_bounds sample_counts default_threshold_weeks 738872 738895);
    reflexivity.
Defined.

Lemma pipeline_attribute_error_iff_witness :
  clades_to_model (data_prep already_date dog_lines) default_threshold
    default_threshold_weeks = Raise AttributeError.
Proof.
  apply (proj2 (pipeline_attribute_error_iff already_date dog_lines default_threshold
                  default_threshold_weeks)).
  intros x [<-|[<-|[]]]; reflexivity.
Defined.

Lemma returned_clades_come_from_window_witness :
  exists r d, In r sample_counts /\ Counts.clade r = Some "XBB"%string
              /\ Counts.date r = Some d /\ 738872 <= d.
Proof.
  apply (returned_clades_come_from_window sample_counts default_threshold
           default_threshold_weeks 738872 [Some "XBB"%string] (Some "XBB"%string)).
  - reflexivity.
  - reflexivity.
  - left. reflexivity.
Defined.

Lemma at_most_nine_returns_those_above_witness :
  exists l, clades_to_model sample_counts default_threshold default_threshold_weeks = Ok l
            /\ NoDup l
            /\ forall v, In v l <->
                          exists p, In p (prop_dat [sample_week]) /\ PropDat.clade p = v
                                    /\ f64_gt (PropDat.proportion p) default_threshold = true.
Proof.
  apply (at_most_nine_returns_those_above sample_counts default_threshold
           default_threshold_weeks [sample_week]).
  - reflexivity.
  - intros vs ND Hvs.
    apply (Nat.le_trans _ (List.length [Some "XBB"%string])); [|cbn; lia].
    apply NoDup_incl_length; [exact ND|].
    intros v Hv. destruct (Hvs v Hv) as [p [Hp [E _]]].
    vm_compute in Hp. destruct Hp as [<-|[]]. left. exact E.
Defined.

Lemma rows_before_cutoff_are_irrelevant_witness :
  (List.length (window 738872 sample_with_old) < List.length sample_with_old)%nat
  /\ three_sundays_ago (window 738872 sample_with_old) default_threshold_weeks = Ok 738872
  /\ match weekly sample_with_old default_threshold_weeks,
           weekly (window 738872 sample_with_old) default_threshold_weeks with
     | Ok df, Ok df' =>
         Permutation df df'
         /\ forall threshold v,
              In v (high_prev_variants threshold (prop_dat df))
              <-> In v (high_prev_variants threshold (prop_dat df'))
     | Raise e, Raise e' => e = e'
     | _, _ => False
     end.
Proof.
  split; [vm_compute; repeat constructor|].
  apply (rows_before_cutoff_are_irrelevant sample_with_old default_threshold_weeks 738872).
  - reflexivity.
  - unfold default_threshold_weeks. lia.
Defined.

Lemma weekly_labels_are_sundays_in_window_witness :
  weekday (Weekly.date sample_week) = 6
  /\ 738872 - 1 <= Weekly.date sample_week <= 738895
  /\ Weekly.date sample_week <= 738872 - 1 + 7 * (default_threshold_weeks + 1)
  /\ exists r d, In r sample_counts /\ Counts.clade r = Weekly.clade sample_week
                 /\ Counts.date r = Some d /\ 738872 <= d
                 /\ Weekly.date sample_week <= d < Weekly.date sample_week + 7.
Proof.
  apply (weekly_labels_are_sundays_in_window sample_counts default_threshold_weeks
           738872 738895 [sample_week] sample_week).
  - reflexivity.
  - reflexivity.
  - reflexivity.
  - left. reflexivity.
Defined.

Lemma weekly_keys_unique_witness : NoDup (map weekly_key eleven_weekly).
Proof.
  apply (weekly_keys_unique eleven_clades default_threshold_weeks eleven_weekly).
  vm_compute. reflexivity.
Defined.

Lemma weekly_counts_add_up_witness :
  sum (map Weekly.count eleven_lines_weekly)
  = sum (map Counts.count (window 738872 (data_prep already_date eleven_lines)))
  /\ sum (map Total.total_count (total_counts eleven_lines_weekly))
     = sum (map Counts.count (window 738872 (data_prep already_date eleven_lines)))
  /\ sum (map PropDat.count (prop_dat eleven_lines_weekly))
     = sum (map Counts.count (window 738872 (data_prep already_date eleven_lines)))
  /\ 0 <= sum (map Counts.count (window 738872 (data_prep already_date eleven_lines)))
       <= Z.of_nat (List.length eleven_lines).
Proof.
  apply (weekly_counts_add_up already_date eleven_lines default_threshold_weeks 738872
           eleven_lines_weekly).
  - vm_compute. reflexivity.
  - vm_compute. reflexivity.
Defined.

Lemma last_day_rows_are_grouped_witness :
  In sample_row (window 738872 sample_counts)
  /\ exists w, In w [sample_week] /\ Weekly.clade w = Counts.clade sample_row
               /\ Weekly.date w = week_start 738895
               /\ In sample_row (cell (Weekly.clade w) (Weekly.date w)
                                      (window 738872 sample_counts))
               /\ Weekly.count w
                  = sum (map Counts.count
                           (cell (Weekly.clade w) (Weekly.date w)
                                 (window 738872 sample_counts))).
Proof.
  apply (last_day_rows_are_grouped sample_counts default_threshold_weeks 738872 738895
           [sample_week] sample_row).
  - reflexivity.
  - reflexivity.
  - unfold default_threshold_weeks. lia.
  - reflexivity.
  - left. reflexivity.
  - reflexivity.
Defined.

Lemma cutoff_after_last_day_gives_empty_list_witness :
  window 738900 sample_counts = []
  /\ clades_to_model sample_counts default_threshold (-1) = Ok [].
Proof.
  apply (cutoff_after_last_day_gives_empty_list sample_counts default_threshold (-1)
           738900 738895).
  - reflexivity.
  - reflexivity.
  - lia.
Defined.
